(** * Tasqueue server runtime: job lifecycle, retry, chain continuation

    A shallow embedding of the server runtime of Tasqueue (package
    [tasqueue], the file holding [Server], [RegisterTask], [NewServer],
    [GetResult], [process], [execJob], [retryJob] and the [status*]
    writers), with theorems about the order and the content of the calls
    a worker makes on its broker and on its results store.

    Go values are passed by value: a [JobMessage] handed to a [status*]
    function is a copy, so the stamps those functions put on it are seen
    only in what they write.  Logging ([s.log]) and tracing spans
    ([s.traceProv], [spanError]) touch neither the broker nor the results
    store and are left out of the embedding. *)

From Stdlib Require Import ZArith Lia.
From stdpp Require Import base gmap strings list pretty.

Open Scope string_scope.
Open Scope list_scope.
Open Scope Z_scope.

(** ** Data model *)

Definition bytes : Type := list Byte.byte.

(** [time.Time], as an instant on a clock. *)
Definition Time : Type := Z.

(** A Go [error]: [None] is [nil], [Some s] an error whose [Error()] is [s]. *)
Definition error : Type := option string.

(** [uint32] arithmetic wraps around. *)
Definition uint32 (x : Z) : Z := x mod 2 ^ 32.

Definition defaultConcurrency : Z := 1.
Definition StatusStarted : string := "queued".
Definition StatusProcessing : string := "processing".
Definition StatusFailed : string := "failed".
Definition StatusDone : string := "successful".
Definition StatusRetrying : string := "retrying".

(** Modelled from the spec: the constants [DefaultQueue], [jobPrefix] and
    [resultsPrefix] are declared outside the file embedded here; the spec
    gives the default queue name and the key convention [msg:<uuid>],
    [result:<uuid>]. *)
Definition DefaultQueue : string := "tasqueue:tasks".
Definition jobPrefix : string := "msg:".
Definition resultsPrefix : string := "result:".

(** Modelled from the spec: the declarations of [JobOpts], [Job], [Meta],
    [JobMessage] and [JobCtx] are outside the file embedded here; the
    fields are those of the spec's data model, under the names the code
    uses for them ([msg.Job.Task], [msg.Retried], [t.ProcessedAt], ...).
    The counters are unsigned 32-bit, as [TaskOpts.Concurrency] is. *)
Record JobOpts := mkJobOpts {
  jopts_Queue : string;
  jopts_MaxRetry : Z;
  jopts_Schedule : string
}.

#[warnings="-register-all"]
Inductive Job := mkJob {
  job_Task : string;
  job_Payload : bytes;
  job_Opts : JobOpts;
  job_OnSuccess : option Job
}.

Record Meta := mkMeta {
  meta_PrevJobResults : list bytes
}.

Record JobMessage := mkJobMessage {
  msg_UUID : string;
  msg_Job : Job;
  msg_Status : string;
  msg_Queue : string;
  msg_MaxRetry : Z;
  msg_Retried : Z;
  msg_PrevErr : string;
  msg_ProcessedAt : Time;
  msg_OnSuccessUUID : string;
  msg_Meta : Meta
}.

(** Field assignments on a (copied) message. *)
Definition set_PrevErr (e : string) (m : JobMessage) : JobMessage :=
  mkJobMessage (msg_UUID m) (msg_Job m) (msg_Status m) (msg_Queue m)
    (msg_MaxRetry m) (msg_Retried m) e (msg_ProcessedAt m)
    (msg_OnSuccessUUID m) (msg_Meta m).

Definition set_Retried (n : Z) (m : JobMessage) : JobMessage :=
  mkJobMessage (msg_UUID m) (msg_Job m) (msg_Status m) (msg_Queue m)
    (msg_MaxRetry m) n (msg_PrevErr m) (msg_ProcessedAt m)
    (msg_OnSuccessUUID m) (msg_Meta m).

Definition set_OnSuccessUUID (u : string) (m : JobMessage) : JobMessage :=
  mkJobMessage (msg_UUID m) (msg_Job m) (msg_Status m) (msg_Queue m)
    (msg_MaxRetry m) (msg_Retried m) (msg_PrevErr m) (msg_ProcessedAt m)
    u (msg_Meta m).

(** [t.ProcessedAt = now; t.Status = st], the two assignments every
    [status*] function starts with. *)
Definition stamp (now : Time) (st : string) (m : JobMessage) : JobMessage :=
  mkJobMessage (msg_UUID m) (msg_Job m) st (msg_Queue m)
    (msg_MaxRetry m) (msg_Retried m) (msg_PrevErr m) now
    (msg_OnSuccessUUID m) (msg_Meta m).

(** ** Calls on the collaborators

    The worker's calls on the results store, the broker, the handler and
    the lifecycle callbacks are recorded with their answers, in the order
    they are made.  A collaborator answers as a function of the calls made
    so far, which covers every deterministic store, broker and handler. *)

Inductive Hook := HookProcessing | HookRetrying | HookFailed | HookSuccess.

Inductive Event :=
| EvGet (key : string) (r : bytes * error)
| EvSet (key : string) (val : bytes) (r : error)
| EvSetSuccess (uuid : string) (r : error)
| EvSetFailed (uuid : string) (r : error)
| EvEnqueue (b : bytes) (queue : string) (r : error)
| EvSchedule (spec : string) (b : bytes) (queue : string) (r : error)
| EvHandler (task : string) (payload : bytes) (meta : Meta) (r : error)
| EvCallback (k : Hook) (meta : Meta).

Definition History : Type := list Event.

(** The [Results] interface (spec, results contract). *)
Record Results := mkResults {
  res_Get : History -> string -> bytes * error;
  res_Set : History -> string -> bytes -> error;
  res_SetSuccess : History -> string -> error;
  res_SetFailed : History -> string -> error;
  res_GetSuccess : History -> list string * error;
  res_GetFailed : History -> list string * error
}.

(** The [Broker] interface (spec, broker contract).  [Consume] feeds the
    work channel; the messages it delivers are the input of [process]. *)
Record Broker := mkBroker {
  brk_Enqueue : History -> bytes -> string -> error
}.

Record JobCtx := mkJobCtx {
  ctx_Meta : Meta;
  ctx_results : list bytes;
  ctx_store : Results
}.

(** [type handler func([]byte, JobCtx) error] *)
Definition handler : Type := History -> bytes -> JobCtx -> error.

(** [func(JobCtx)]: a callback gives nothing back to the worker. *)
Definition callback : Type := JobCtx -> unit.

Record TaskOpts := mkTaskOpts {
  topts_Concurrency : Z;
  topts_Queue : string;
  topts_SuccessCB : option callback;
  topts_ProcessingCB : option callback;
  topts_RetryingCB : option callback;
  topts_FailedCB : option callback
}.

Record Task := mkTask {
  task_name : string;
  task_handler : handler;
  task_opts : TaskOpts
}.

(** [logf.Logger]: only its level is read here. *)
Record Logger := mkLogger { log_Level : Z }.

(** [*cron.Cron]: a scheduler is constructed stopped and runs once started. *)
Record Cron := mkCron { cron_running : bool; cron_entries : list (string * Job) }.

(** [*trace.TracerProvider], by its address. *)
Definition TracerProvider : Type := positive.

Record Server := mkServer {
  srv_log : Logger;
  srv_broker : Broker;
  srv_results : Results;
  srv_cron : Cron;
  srv_traceProv : option TracerProvider;
  srv_tasks : gmap string Task
}.

Record ServerOpts := mkServerOpts {
  sopts_Broker : option Broker;
  sopts_Results : option Results;
  sopts_Logger : Logger;
  sopts_TraceProvider : option TracerProvider
}.

(** ** The libraries the server calls *)

Class Libs := mkLibs {
  (** [msgpack.Marshal(msg)] *)
  msgpack_Marshal : JobMessage -> bytes + string;
  (** [msgpack.Unmarshal(work, &msg)]: the decoded message, or the error *)
  msgpack_Unmarshal : bytes -> JobMessage + string;
  (** [msgpack.Unmarshal(b, d)] with [d] a [[][]byte] value and no pointer
      to one: the callee holds a copy of [d] and gives back its error only *)
  msgpack_Unmarshal_value : bytes -> list bytes -> error;
  (** [time.Now()] *)
  time_Now : History -> Time;
  (** a fresh uuid *)
  uuid_New : History -> string;
  (** [logf.New(logf.Opts{})] *)
  logf_New : Logger
}.

(** [cron.New()] *)
Definition cron_New : Cron := mkCron false [].

(** ** Sequencing calls

    A computation is given the calls made so far and gives back its result
    and the calls it made. *)

Definition M (A : Type) : Type := History -> A * list Event.

Definition ret {A} (a : A) : M A := fun _ => (a, []).

Definition bind {A B} (m : M A) (k : A -> M B) : M B :=
  fun h =>
    let '(a, t1) := m h in
    let '(b, t2) := k a (h ++ t1) in
    (b, t1 ++ t2).

Declare Scope go_scope.
Delimit Scope go_scope with go.
Notation "x <- m ;; k" := (bind m (fun x => k))
  (at level 20, m at level 99, k at level 200, only parsing) : go_scope.
Notation "' p <- m ;; k" := (bind m (fun x => let p := x in k))
  (at level 20, p pattern, m at level 99, k at level 200, only parsing) : go_scope.
Open Scope go_scope.

(** One call, recorded with its answer. *)
Definition call {A} (answer : History -> A) (ev : A -> Event) : M A :=
  fun h => let a := answer h in (a, [ev a]).

Definition results_Get (r : Results) (key : string) : M (bytes * error) :=
  call (fun h => res_Get r h key) (EvGet key).

Definition results_Set (r : Results) (key : string) (v : bytes) : M error :=
  call (fun h => res_Set r h key v) (EvSet key v).

Definition results_SetSuccess (r : Results) (uuid : string) : M error :=
  call (fun h => res_SetSuccess r h uuid) (EvSetSuccess uuid).

Definition results_SetFailed (r : Results) (uuid : string) : M error :=
  call (fun h => res_SetFailed r h uuid) (EvSetFailed uuid).

Definition broker_Enqueue (b : Broker) (v : bytes) (queue : string) : M error :=
  call (fun h => brk_Enqueue b h v queue) (EvEnqueue v queue).

(** [task.handler(payload, taskCtx)] *)
Definition run_handler (t : Task) (payload : bytes) (c : JobCtx) : M error :=
  call (fun h => task_handler t h payload c)
       (EvHandler (task_name t) payload (ctx_Meta c)).

(** [if cb != nil { cb(taskCtx) }] *)
Definition run_callback (k : Hook) (cb : option callback) (c : JobCtx) : M unit :=
  match cb with
  | Some _ => fun _ => (tt, [EvCallback k (ctx_Meta c)])
  | None => ret tt
  end.

(** ** The server *)

Section Server.
Context {L : Libs}.

Definition set_Concurrency (n : Z) (o : TaskOpts) : TaskOpts :=
  mkTaskOpts n (topts_Queue o) (topts_SuccessCB o) (topts_ProcessingCB o)
    (topts_RetryingCB o) (topts_FailedCB o).

Definition set_Queue (q : string) (o : TaskOpts) : TaskOpts :=
  mkTaskOpts (topts_Concurrency o) q (topts_SuccessCB o) (topts_ProcessingCB o)
    (topts_RetryingCB o) (topts_FailedCB o).

(** [s.tasks[name] = t] *)
Definition registerHandler (s : Server) (name : string) (t : Task) : Server :=
  mkServer (srv_log s) (srv_broker s) (srv_results s) (srv_cron s)
    (srv_traceProv s) (<[name := t]> (srv_tasks s)).

(** [fn, ok := s.tasks[name]]: the task, or the error *)
Definition getHandler (s : Server) (name : string) : Task + string :=
  match srv_tasks s !! name with
  | Some fn => inl fn
  | None => inr ("handler " +:+ name +:+ " not found")
  end.

Definition RegisterTask (s : Server) (name : string) (fn : handler)
    (opts : TaskOpts) : Server :=
  let opts := if topts_Concurrency opts <=? 0
              then set_Concurrency defaultConcurrency opts else opts in
  let opts := if String.eqb (topts_Queue opts) ""
              then set_Queue DefaultQueue opts else opts in
  registerHandler s name (mkTask name fn opts).

Definition NewServer (o : ServerOpts) : option Server * error :=
  match sopts_Broker o with
  | None => (None, Some "broker missing in options")
  | Some b =>
    match sopts_Results o with
    | None => (None, Some "results missing in options")
    | Some r =>
      let logger := if log_Level (sopts_Logger o) =? 0
                    then logf_New else sopts_Logger o in
      (Some (mkServer logger b r cron_New (sopts_TraceProvider o) ∅), None)
    end
  end.

Definition GetResult (s : Server) (uuid : string) : M (list bytes * error) :=
  ' (b, err) <- results_Get (srv_results s) (resultsPrefix +:+ uuid) ;;
  match err with
  | Some e => ret ([], Some e)
  | None =>
    (* var d [][]byte *)
    let d : list bytes := [] in
    (* msgpack.Unmarshal(b, d): d itself is passed, not its address *)
    match msgpack_Unmarshal_value b d with
    | Some e => ret ([], Some e)
    | None => ret (d, None)
    end
  end.

(** Modelled from the spec: [setJobMessage] is defined outside the file
    embedded here; the spec has every state written through the results
    interface as the marshalled message under the key [msg:<uuid>]. *)
Definition setJobMessage (s : Server) (t : JobMessage) : M error :=
  match msgpack_Marshal t with
  | inr e => ret (Some e)
  | inl b => results_Set (srv_results s) (jobPrefix +:+ msg_UUID t) b
  end.

(** The common shape of [statusStarted], [statusProcessing] and
    [statusRetrying]: stamp the copy, write it. *)
Definition statusStarted (s : Server) (t : JobMessage) : M error :=
  fun h => setJobMessage s (stamp (time_Now h) StatusStarted t) h.

Definition statusProcessing (s : Server) (t : JobMessage) : M error :=
  fun h => setJobMessage s (stamp (time_Now h) StatusProcessing t) h.

Definition statusRetrying (s : Server) (t : JobMessage) : M error :=
  fun h => setJobMessage s (stamp (time_Now h) StatusRetrying t) h.

Definition statusDone (s : Server) (t : JobMessage) : M error :=
  fun h =>
    let t := stamp (time_Now h) StatusDone t in
    (err <- results_SetSuccess (srv_results s) (msg_UUID t) ;;
     match err with
     | Some e => ret (Some e)
     | None => setJobMessage s t
     end) h.

Definition statusFailed (s : Server) (t : JobMessage) : M error :=
  fun h =>
    let t := stamp (time_Now h) StatusFailed t in
    (err <- results_SetFailed (srv_results s) (msg_UUID t) ;;
     match err with
     | Some e => ret (Some e)
     | None => setJobMessage s t
     end) h.

(** [retryJob] increments the retried count and re-queues the message. *)
Definition retryJob (s : Server) (msg : JobMessage) : M error :=
  let msg := set_Retried (uint32 (msg_Retried msg + 1)) msg in
  match msgpack_Marshal msg with
  | inr e => ret (Some e)
  | inl b =>
    err <- statusRetrying s msg ;;
    match err with
    | Some e => ret (Some e)
    | None => broker_Enqueue (srv_broker s) b (msg_Queue msg)
    end
  end.

(** Modelled from the spec: [DefaultMeta] is defined outside the file
    embedded here; a fresh meta carries no results of a previous job. *)
Definition DefaultMeta (o : JobOpts) : Meta := mkMeta [].

Definition set_PrevJobResults (r : list bytes) (m : Meta) : Meta := mkMeta r.

(** Modelled from the spec: [enqueueWithMeta] is defined outside the file
    embedded here.  Following the spec's enqueue path: a fresh uuid, status
    [queued], [processedAt] now, [maxRetry] from the options, [retried] 0,
    the queue from the options or the default; the message is marshalled,
    its record is written through the results interface before the bytes
    go to the broker, and a job that carries a schedule is handed to the
    scheduler instead of the broker.  An error of any step is returned. *)
Definition enqueueWithMeta (s : Server) (t : Job) (meta : Meta) : M (string * error) :=
  fun h =>
    let o := job_Opts t in
    let queue := if String.eqb (jopts_Queue o) "" then DefaultQueue else jopts_Queue o in
    let msg := mkJobMessage (uuid_New h) t StatusStarted queue
                 (jopts_MaxRetry o) 0 "" (time_Now h) "" meta in
    match msgpack_Marshal msg with
    | inr e => (("", Some e), [])
    | inl b =>
      (err <- results_Set (srv_results s) (jobPrefix +:+ msg_UUID msg) b ;;
       match err with
       | Some e => ret ("", Some e)
       | None =>
         err <- (if String.eqb (jopts_Schedule o) ""
                 then broker_Enqueue (srv_broker s) b queue
                 else call (fun _ => None) (EvSchedule (jopts_Schedule o) b queue)) ;;
         match err with
         | Some e => ret ("", Some e)
         | None => ret (msg_UUID msg, None)
         end
       end) h
    end.

Definition jobCtx (s : Server) (msg : JobMessage) : JobCtx :=
  mkJobCtx (msg_Meta msg) [] (srv_results s).

Definition execJob (s : Server) (msg : JobMessage) (task : Task) : M error :=
  (* taskCtx := JobCtx{Meta: msg.Meta, store: s.results} *)
  let taskCtx := jobCtx s msg in
  _ <- run_callback HookProcessing (topts_ProcessingCB (task_opts task)) taskCtx ;;
  err <- run_handler task (job_Payload (msg_Job msg)) taskCtx ;;
  match err with
  | Some e =>
    let msg := set_PrevErr e msg in
    if negb (msg_MaxRetry msg =? msg_Retried msg) then
      _ <- run_callback HookRetrying (topts_RetryingCB (task_opts task)) taskCtx ;;
      retryJob s msg
    else
      _ <- run_callback HookFailed (topts_FailedCB (task_opts task)) taskCtx ;;
      statusFailed s msg
  | None =>
    _ <- run_callback HookSuccess (topts_SuccessCB (task_opts task)) taskCtx ;;
    ' (msg, err) <-
      match job_OnSuccess (msg_Job msg) with
      | Some nj =>
        let meta := DefaultMeta (job_Opts nj) in
        (* the handler was given a copy of taskCtx *)
        let meta := set_PrevJobResults (ctx_results taskCtx) meta in
        ' (uuid, err) <- enqueueWithMeta s nj meta ;;
        ret (set_OnSuccessUUID uuid msg, err)
      | None => ret (msg, None)
      end ;;
    match err with
    | Some e => ret (Some e)
    | None => statusDone s msg
    end
  end.

(** The body of [process] for one message read from the work channel.
    A [break] leaves the [select], and the loop goes on. *)
Definition processWork (s : Server) (work : bytes) : M unit :=
  match msgpack_Unmarshal work with
  | inr _ => ret tt
  | inl msg =>
    match getHandler s (job_Task (msg_Job msg)) with
    | inr _ => ret tt
    | inl task =>
      err <- statusProcessing s msg ;;
      match err with
      | Some _ => ret tt
      | None => _ <- execJob s msg task ;; ret tt
      end
    end
  end.

(** [process] over the messages the channel delivers before the context
    is done. *)
Fixpoint process (s : Server) (w : list bytes) : M unit :=
  match w with
  | [] => ret tt
  | work :: w' => _ <- processWork s work ;; process s w'
  end.

End Server.

(** ** Reading traces *)

(** The calls a callback adds to the trace. *)
Definition hook_trace (k : Hook) (cb : option callback) (c : JobCtx) : list Event :=
  match cb with
  | Some _ => [EvCallback k (ctx_Meta c)]
  | None => []
  end.

Definition is_enqueue (ev : Event) : bool :=
  match ev with EvEnqueue _ _ _ => true | _ => false end.

Definition is_handler_call (ev : Event) : bool :=
  match ev with EvHandler _ _ _ _ => true | _ => false end.

Definition is_state_write (ev : Event) : bool :=
  match ev with EvSet _ _ _ => true | _ => false end.

Definition is_index_write (ev : Event) : bool :=
  match ev with EvSetSuccess _ _ | EvSetFailed _ _ => true | _ => false end.

(** Any call on the results store that writes. *)
Definition is_store_write (ev : Event) : bool :=
  is_state_write ev || is_index_write ev.

Section Observations.
Context {L : Libs}.

(** The options as [RegisterTask] normalises them. *)
Definition normalised (opts : TaskOpts) : TaskOpts :=
  mkTaskOpts
    (if 0 <? topts_Concurrency opts then topts_Concurrency opts else 1)
    (if String.eqb (topts_Queue opts) "" then DefaultQueue else topts_Queue opts)
    (topts_SuccessCB opts) (topts_ProcessingCB opts)
    (topts_RetryingCB opts) (topts_FailedCB opts).

(** What the handler answers when [execJob] calls it, and the trace of
    [execJob] up to and including that call. *)
Definition handler_answer (s : Server) (msg : JobMessage) (task : Task)
    (h : History) : error :=
  task_handler task
    (h ++ hook_trace HookProcessing (topts_ProcessingCB (task_opts task)) (jobCtx s msg))
    (job_Payload (msg_Job msg)) (jobCtx s msg).

Definition handler_trace (s : Server) (msg : JobMessage) (task : Task)
    (h : History) : list Event :=
  hook_trace HookProcessing (topts_ProcessingCB (task_opts task)) (jobCtx s msg)
  ++ [EvHandler (task_name task) (job_Payload (msg_Job msg)) (msg_Meta msg)
        (handler_answer s msg task h)].

(** The message [retryJob] works on: the retried count incremented. *)
Definition incremented (msg : JobMessage) : JobMessage :=
  set_Retried (uint32 (msg_Retried msg + 1)) msg.

(** The message [enqueueWithMeta] materialises for a job. *)
Definition queued_message (t : Job) (meta : Meta) (h : History) : JobMessage :=
  mkJobMessage (uuid_New h) t StatusStarted
    (if String.eqb (jopts_Queue (job_Opts t)) "" then DefaultQueue
     else jopts_Queue (job_Opts t))
    (jopts_MaxRetry (job_Opts t)) 0 "" (time_Now h) "" meta.

End Observations.

(** ** A concrete runtime, to run the model on

    A toy codec that keeps the fields the lifecycle changes, a clock that
    counts the calls made so far, and stores and brokers that always
    answer the same. *)

Definition toy_Marshal (m : JobMessage) : bytes + string :=
  inl (String.list_byte_of_string
         (msg_UUID m +:+ "|" +:+ msg_Status m +:+ "|" +:+ msg_PrevErr m +:+ "|"
          +:+ msg_OnSuccessUUID m)
       ++ [Byte.x00; default Byte.x00 (Byte.of_N (Z.to_N (msg_Retried m)));
           default Byte.x00 (Byte.of_N (Z.to_N (msg_ProcessedAt m)))]).

Definition toy_payload : bytes := [Byte.x33; Byte.x34].

Definition toy_job (next : option Job) : Job :=
  mkJob "add" toy_payload (mkJobOpts "" 0 "") next.

(** A delivered message: [retried] of [maxRetry] attempts used. *)
Definition toy_msg (retried maxRetry : Z) (next : option Job) : JobMessage :=
  mkJobMessage "u1" (toy_job next) StatusStarted DefaultQueue maxRetry retried
    "" 0 "" (mkMeta []).

(** The wire carries one byte, the count of retries used, of a job that
    may be retried twice; any other first byte does not decode. *)
Definition toy_Unmarshal (b : bytes) : JobMessage + string :=
  match b with
  | [Byte.x00] => inl (toy_msg 0 2 None)
  | [Byte.x01] => inl (toy_msg 1 2 None)
  | [Byte.x02] => inl (toy_msg 2 2 None)
  | _ => inr "msgpack: invalid code"
  end.

Definition toyLibs : Libs := {|
  msgpack_Marshal := toy_Marshal;
  msgpack_Unmarshal := toy_Unmarshal;
  msgpack_Unmarshal_value := fun _ _ => Some "msgpack: Decode(non-pointer [][]uint8)";
  time_Now := fun h => Z.of_nat (length h);
  uuid_New := fun h => "n" +:+ pretty (length h);
  logf_New := mkLogger 2
|}.

(** A store whose every call answers [e], and that holds [v] under every key. *)
Definition const_store (v : bytes) (get set idx : error) : Results :=
  mkResults (fun _ _ => (v, get)) (fun _ _ _ => set) (fun _ _ => idx)
    (fun _ _ => idx) (fun _ => ([], None)) (fun _ => ([], None)).

Definition good_store : Results := const_store [] None None None.
Definition const_broker (e : error) : Broker := mkBroker (fun _ _ _ => e).

Definition toy_server (r : Results) (b : Broker) : Server :=
  mkServer (mkLogger 2) b r cron_New None ∅.

Definition no_hooks (conc : Z) (q : string) : TaskOpts :=
  mkTaskOpts conc q None None None None.

(** A task whose handler always answers [e]. *)
Definition toy_task (e : error) : Task :=
  mkTask "add" (fun _ _ _ => e) (no_hooks 1 DefaultQueue).

Definition store_down : Results := const_store [] None (Some "store down") None.
Definition index_down : Results := const_store [] None None (Some "index down").

(** The record of a job that saved the one blob ["7"]: a msgpack array of
    one binary of length one. *)
Definition saved_seven : bytes := [Byte.x91; Byte.xc4; Byte.x01; Byte.x37].

Definition toy_bytes (m : JobMessage) : bytes :=
  match toy_Marshal m with inl b => b | inr _ => [] end.

Definition boom : error := Some "boom".

(** The handler call of the toy task, as the trace records it. *)
Definition toy_call (r : error) : Event :=
  EvHandler "add" toy_payload (mkMeta []) r.

(** ** The rest of the server

    What the lifecycle theorems do not use: registering several tasks,
    the goroutines [Start] launches, and a broker that hands back to the
    worker what it accepted. *)

(** [RegisterTask], once per entry, in order. *)
Definition register_all (s : Server) (rs : list (string * handler * TaskOpts)) : Server :=
  fold_left (fun s r => RegisterTask s r.1.1 r.1.2 r.2) rs s.

(** The task the last entry for [name] registers, if any. *)
Definition last_registration (name : string)
    (rs : list (string * handler * TaskOpts)) : option Task :=
  fold_left
    (fun acc r => if String.eqb r.1.1 name
                  then Some (mkTask name r.1.2 (normalised r.2)) else acc)
    rs None.

(** What [RegisterTask] keeps true of every entry of the registry: it is
    stored under its own name, has at least one worker, and has a queue. *)
Definition registry_ok (s : Server) : Prop :=
  forall k t, srv_tasks s !! k = Some t ->
    task_name t = k
    /\ 1 <= topts_Concurrency (task_opts t)
    /\ topts_Queue (task_opts t) <> "".

(** The goroutines [Start] launches.  Each iteration over [s.tasks] makes
    one channel, named here by the key of the iteration, one consumer of
    the task's queue that feeds it, and [int(Concurrency)] processors that
    read it ([int] being 64 bits wide); every one of them but the
    scheduler is counted by the wait group.  The order of iteration over
    a Go map is not fixed: only membership and counts are meaningful. *)
Inductive Goroutine :=
| GoCron
| GoConsume (chan : string) (queue : string)
| GoProcess (chan : string).

Definition Start_task (kt : string * Task) : list Goroutine :=
  GoConsume kt.1 (topts_Queue (task_opts kt.2))
  :: replicate (Z.to_nat (topts_Concurrency (task_opts kt.2))) (GoProcess kt.1).

Definition Start (s : Server) : list Goroutine :=
  GoCron :: flat_map Start_task (map_to_list (srv_tasks s)).

Definition is_process_of (chan : string) (g : Goroutine) : bool :=
  match g with GoProcess c => String.eqb c chan | _ => false end.

Definition is_consume_of (chan : string) (g : Goroutine) : bool :=
  match g with GoConsume c _ => String.eqb c chan | _ => false end.

Definition count_if {A} (p : A -> bool) (l : list A) : nat :=
  length (List.filter p l).

Definition is_callback (ev : Event) : bool :=
  match ev with EvCallback _ _ => true | _ => false end.

(** A call on the results store, the broker or the scheduler. *)
Definition is_collaborator_call (ev : Event) : bool :=
  match ev with
  | EvHandler _ _ _ _ | EvCallback _ _ => false
  | _ => true
  end.

(** The callback [execJob] runs after the handler answered [a]. *)
Definition outcome_trace (s : Server) (msg : JobMessage) (task : Task)
    (a : error) : list Event :=
  match a with
  | None => hook_trace HookSuccess (topts_SuccessCB (task_opts task)) (jobCtx s msg)
  | Some _ =>
    if negb (msg_MaxRetry msg =? msg_Retried msg)
    then hook_trace HookRetrying (topts_RetryingCB (task_opts task)) (jobCtx s msg)
    else hook_trace HookFailed (topts_FailedCB (task_opts task)) (jobCtx s msg)
  end.

(** [t'] is [t] but for its status and its timestamp. *)
Definition same_but_stamp (t t' : JobMessage) : Prop :=
  msg_UUID t' = msg_UUID t /\ msg_Job t' = msg_Job t
  /\ msg_Queue t' = msg_Queue t /\ msg_MaxRetry t' = msg_MaxRetry t
  /\ msg_Retried t' = msg_Retried t /\ msg_PrevErr t' = msg_PrevErr t
  /\ msg_OnSuccessUUID t' = msg_OnSuccessUUID t /\ msg_Meta t' = msg_Meta t.

(** The bytes the broker accepted in the last call of a trace. *)
Definition accepted_enqueue (t : list Event) : option bytes :=
  match last t with
  | Some (EvEnqueue b _ None) => Some b
  | _ => None
  end.

Section Redelivery.
Context {L : Libs}.

(** A worker that is handed [work] and then, up to [n] more times, the
    bytes it last had the broker accept. *)
Fixpoint redeliver (n : nat) (s : Server) (work : bytes) (h : History) : list Event :=
  let t := (processWork s work h).2 in
  match n with
  | O => t
  | S n' =>
    match accepted_enqueue t with
    | Some b => t ++ redeliver n' s b (h ++ t)
    | None => t
    end
  end.

(** [work] decodes and names a registered task. *)
Definition deliverable (s : Server) (work : bytes) : bool :=
  match msgpack_Unmarshal work with
  | inl msg =>
    match getHandler s (job_Task (msg_Job msg)) with
    | inl _ => true
    | inr _ => false
    end
  | inr _ => false
  end.

(** The codec keeps the two counters of a message across the wire. *)
Definition counters_survive : Prop :=
  forall m b m',
    msgpack_Marshal m = inl b -> msgpack_Unmarshal b = inl m' ->
    msg_Retried m' = msg_Retried m /\ msg_MaxRetry m' = msg_MaxRetry m.

End Redelivery.

(** A codec of two bytes, the counters, for messages whose counters fit. *)
Definition wire_Marshal (m : JobMessage) : bytes + string :=
  match Byte.of_N (Z.to_N (msg_Retried m)), Byte.of_N (Z.to_N (msg_MaxRetry m)) with
  | Some r, Some n =>
    if (0 <=? msg_Retried m) && (0 <=? msg_MaxRetry m) then inl [r; n]
    else inr "msgpack: negative counter"
  | _, _ => inr "msgpack: counter too large"
  end.

Definition wire_Unmarshal (b : bytes) : JobMessage + string :=
  match b with
  | [r; n] => inl (toy_msg (Z.of_N (Byte.to_N r)) (Z.of_N (Byte.to_N n)) None)
  | _ => inr "msgpack: invalid code"
  end.

Definition wireLibs : Libs := {|
  msgpack_Marshal := wire_Marshal;
  msgpack_Unmarshal := wire_Unmarshal;
  msgpack_Unmarshal_value := fun _ _ => Some "msgpack: Decode(non-pointer [][]uint8)";
  time_Now := fun h => Z.of_nat (length h);
  uuid_New := fun h => "n" +:+ pretty (length h);
  logf_New := mkLogger 2
|}.

(** A server with the one task ["add"] registered, its handler answering [e]. *)
Definition add_server (r : Results) (b : Broker) (e : error) : Server :=
  RegisterTask (toy_server r b) "add" (fun _ _ _ => e) (no_hooks 0 "").

(** * Theorems *)

(** Case analysis on membership in a trace given by its calls. *)
Ltac in_trace :=
  repeat match goal with
  | H : _ ∈ [] |- _ => by apply elem_of_nil in H
  | H : _ ∈ _ :: _ |- _ =>
      apply elem_of_cons in H as [H|H]; [try discriminate H|]
  | H : _ ∈ _ ++ _ |- _ => apply elem_of_app in H as [H|H]
  end.

(** ** The registry *)

Section Registry.
Context {L : Libs}.

Lemma getHandler_registerHandler (s : Server) (name : string) (t : Task) :
  getHandler (registerHandler s name t) name = inl t.
Proof. unfold getHandler, registerHandler; simpl. by rewrite lookup_insert_eq. Qed.

Lemma getHandler_registerHandler_ne (s : Server) (name other : string) (t : Task) :
  name <> other ->
  getHandler (registerHandler s name t) other = getHandler s other.
Proof.
  intros Hne. unfold getHandler, registerHandler; simpl.
  by rewrite lookup_insert_ne.
Qed.

Lemma RegisterTask_registers (s : Server) (name : string) (fn : handler)
    (opts : TaskOpts) :
  RegisterTask s name fn opts
  = registerHandler s name (mkTask name fn (normalised opts)).
Proof.
  unfold RegisterTask, normalised, defaultConcurrency. f_equal. f_equal.
  destruct opts as [c q c1 c2 c3 c4]; simpl.
  destruct (Z.leb_spec c 0), (Z.ltb_spec 0 c); try lia; simpl;
    destruct (String.eqb q ""); reflexivity.
Qed.

(** C7. After [RegisterTask name fn opts], looking [name] up gives a task
    with that name and handler, whose concurrency is [opts.Concurrency]
    when that is positive and 1 otherwise, and whose queue is [opts.Queue]
    when that is not empty and [DefaultQueue] otherwise; other names are
    looked up as before, and registering [name] again replaces the entry. *)
Theorem RegisterTask_lookup (s : Server) (name : string) (fn : handler)
    (opts : TaskOpts) :
  (exists t,
      getHandler (RegisterTask s name fn opts) name = inl t
      /\ task_name t = name /\ task_handler t = fn
      /\ (0 < topts_Concurrency opts ->
          topts_Concurrency (task_opts t) = topts_Concurrency opts)
      /\ (topts_Concurrency opts <= 0 -> topts_Concurrency (task_opts t) = 1)
      /\ (topts_Queue opts <> "" -> topts_Queue (task_opts t) = topts_Queue opts)
      /\ (topts_Queue opts = "" -> topts_Queue (task_opts t) = DefaultQueue))
  /\ (forall other, name <> other ->
        getHandler (RegisterTask s name fn opts) other = getHandler s other)
  /\ (forall fn' opts',
        RegisterTask (RegisterTask s name fn opts) name fn' opts'
        = RegisterTask s name fn' opts').
Proof.
  split; [|split].
  - exists (mkTask name fn (normalised opts)).
    rewrite RegisterTask_registers, getHandler_registerHandler; simpl.
    repeat split.
    + intros H. by destruct (Z.ltb_spec 0 (topts_Concurrency opts)); [|lia].
    + intros H. by destruct (Z.ltb_spec 0 (topts_Concurrency opts)); [lia|].
    + intros H. destruct (String.eqb_spec (topts_Queue opts) ""); congruence.
    + intros H. by rewrite H.
  - intros other Hne. rewrite RegisterTask_registers.
    by apply getHandler_registerHandler_ne.
  - intros fn' opts'. rewrite !RegisterTask_registers.
    unfold registerHandler; simpl. by rewrite insert_insert_eq.
Qed.

(** ** Construction *)

(** C8. [NewServer] returns an error exactly when the broker or the
    results store is missing, and then no server; otherwise it returns,
    with no error, a server that holds the given broker, results store
    and tracer, an empty registry, a scheduler as constructed (not
    running), and the given logger, or the default one when the given
    logger has no level. *)
Theorem NewServer_spec (o : ServerOpts) :
  ((NewServer o).2 <> None <-> sopts_Broker o = None \/ sopts_Results o = None)
  /\ ((NewServer o).2 <> None -> (NewServer o).1 = None)
  /\ (forall b r, sopts_Broker o = Some b -> sopts_Results o = Some r ->
        exists s, NewServer o = (Some s, None)
          /\ srv_broker s = b /\ srv_results s = r
          /\ srv_traceProv s = sopts_TraceProvider o
          /\ srv_tasks s = ∅
          /\ (forall name, exists e, getHandler s name = inr e)
          /\ srv_cron s = cron_New /\ cron_running (srv_cron s) = false
          /\ (log_Level (sopts_Logger o) = 0 -> srv_log s = logf_New)
          /\ (log_Level (sopts_Logger o) <> 0 -> srv_log s = sopts_Logger o)).
Proof.
  unfold NewServer.
  destruct (sopts_Broker o) as [b|], (sopts_Results o) as [r|]; simpl;
    (split; [|split]);
    try (split; [intros _; auto | discriminate]); try done.
  - split; [congruence | intros [?|?]; discriminate].
  - intros b' r' [= <-] [= <-]. eexists; split; [reflexivity|]; simpl.
    repeat split; try done.
    + intros name. unfold getHandler; simpl. rewrite lookup_empty. eauto.
    + intros ->. reflexivity.
    + intros H. by destruct (Z.eqb_spec (log_Level (sopts_Logger o)) 0).
Qed.

End Registry.

(** ** Status writes *)

Section Lifecycle.
Context {L : Libs}.

Lemma setJobMessage_run (s : Server) (t : JobMessage) (h : History) :
  setJobMessage s t h =
  match msgpack_Marshal t with
  | inr e => (Some e, [])
  | inl b =>
    let r := res_Set (srv_results s) h (jobPrefix +:+ msg_UUID t) b in
    (r, [EvSet (jobPrefix +:+ msg_UUID t) b r])
  end.
Proof. unfold setJobMessage. by destruct (msgpack_Marshal t). Qed.

(** What a state write puts in the trace: nothing when the message does
    not marshal, one [Set] of its bytes under its key otherwise. *)
Lemma setJobMessage_trace (s : Server) (t : JobMessage) (h : History) ev :
  ev ∈ (setJobMessage s t h).2 ->
  exists b, msgpack_Marshal t = inl b
    /\ ev = EvSet (jobPrefix +:+ msg_UUID t) b
              (res_Set (srv_results s) h (jobPrefix +:+ msg_UUID t) b)
    /\ setJobMessage s t h = ((setJobMessage s t h).1, [ev]).
Proof.
  rewrite setJobMessage_run. destruct (msgpack_Marshal t) as [b|e]; simpl.
  - intros H. in_trace. subst. eauto.
  - intros H. in_trace.
Qed.

Lemma statusDone_run (s : Server) (t : JobMessage) (h : History) :
  statusDone s t h =
  match res_SetSuccess (srv_results s) h (msg_UUID t) with
  | Some e => (Some e, [EvSetSuccess (msg_UUID t) (Some e)])
  | None =>
    let w := setJobMessage s (stamp (time_Now h) StatusDone t)
               (h ++ [EvSetSuccess (msg_UUID t) None]) in
    (w.1, EvSetSuccess (msg_UUID t) None :: w.2)
  end.
Proof.
  unfold statusDone, bind, results_SetSuccess, call; simpl.
  destruct (res_SetSuccess _ _ _); simpl; [done|].
  by destruct (setJobMessage _ _ _).
Qed.

Lemma statusFailed_run (s : Server) (t : JobMessage) (h : History) :
  statusFailed s t h =
  match res_SetFailed (srv_results s) h (msg_UUID t) with
  | Some e => (Some e, [EvSetFailed (msg_UUID t) (Some e)])
  | None =>
    let w := setJobMessage s (stamp (time_Now h) StatusFailed t)
               (h ++ [EvSetFailed (msg_UUID t) None]) in
    (w.1, EvSetFailed (msg_UUID t) None :: w.2)
  end.
Proof.
  unfold statusFailed, bind, results_SetFailed, call; simpl.
  destruct (res_SetFailed _ _ _); simpl; [done|].
  by destruct (setJobMessage _ _ _).
Qed.

(** C4. [statusDone] calls [SetSuccess] first and [statusFailed] calls
    [SetFailed] first.  A write of the state message is in the trace only
    as the call right after an index write that returned no error, and it
    writes the marshalled message, stamped [successful] (resp. [failed]),
    under the message's key.  When the index write returns an error, that
    call is the whole trace and its error is returned. *)
Theorem index_write_before_state_write (s : Server) (t : JobMessage) (h : History) :
  let u := msg_UUID t in
  let key := jobPrefix +:+ u in
  ((exists r tr, (statusDone s t h).2 = EvSetSuccess u r :: tr)
   /\ (forall k v r, EvSet k v r ∈ (statusDone s t h).2 ->
         (statusDone s t h).2 = [EvSetSuccess u None; EvSet k v r]
         /\ k = key
         /\ msgpack_Marshal (stamp (time_Now h) StatusDone t) = inl v)
   /\ (forall e, res_SetSuccess (srv_results s) h u = Some e ->
         statusDone s t h = (Some e, [EvSetSuccess u (Some e)])))
  /\
  ((exists r tr, (statusFailed s t h).2 = EvSetFailed u r :: tr)
   /\ (forall k v r, EvSet k v r ∈ (statusFailed s t h).2 ->
         (statusFailed s t h).2 = [EvSetFailed u None; EvSet k v r]
         /\ k = key
         /\ msgpack_Marshal (stamp (time_Now h) StatusFailed t) = inl v)
   /\ (forall e, res_SetFailed (srv_results s) h u = Some e ->
         statusFailed s t h = (Some e, [EvSetFailed u (Some e)]))).
Proof.
  intros u key. split.
  - rewrite statusDone_run. fold u.
    destruct (res_SetSuccess (srv_results s) h u) as [e|] eqn:Hidx; simpl.
    + split; [eauto|]. split; [|by intros ? [= ->]].
      intros k v r H. in_trace.
    + split; [eauto|]. split; [|done].
      intros k v r H. in_trace.
      apply setJobMessage_trace in H as (b & Hb & Hev & Hrun).
      rewrite Hrun; simpl. injection Hev as -> -> _. by rewrite Hb.
  - rewrite statusFailed_run. fold u.
    destruct (res_SetFailed (srv_results s) h u) as [e|] eqn:Hidx; simpl.
    + split; [eauto|]. split; [|by intros ? [= ->]].
      intros k v r H. in_trace.
    + split; [eauto|]. split; [|done].
      intros k v r H. in_trace.
      apply setJobMessage_trace in H as (b & Hb & Hev & Hrun).
      rewrite Hrun; simpl. injection Hev as -> -> _. by rewrite Hb.
Qed.

(** ** Running a job *)

Lemma run_callback_run (k : Hook) (cb : option callback) (c : JobCtx) (h : History) :
  run_callback k cb c h = (tt, hook_trace k cb c).
Proof. by destruct cb. Qed.

Lemma hook_trace_no_store_write (k : Hook) (cb : option callback) (c : JobCtx) ev :
  ev ∈ hook_trace k cb c -> ev = EvCallback k (ctx_Meta c).
Proof. destruct cb; simpl; intros H; by in_trace. Qed.

Lemma handler_trace_events (s : Server) (msg : JobMessage) (task : Task)
    (h : History) ev :
  ev ∈ handler_trace s msg task h ->
  ev = EvCallback HookProcessing (msg_Meta msg)
  \/ ev = EvHandler (task_name task) (job_Payload (msg_Job msg)) (msg_Meta msg)
            (handler_answer s msg task h).
Proof.
  unfold handler_trace. intros H. in_trace; [|by right].
  apply hook_trace_no_store_write in H. by left.
Qed.

Lemma retryJob_run (s : Server) (msg : JobMessage) (h : History) :
  retryJob s msg h =
  let m1 := incremented msg in
  let key := jobPrefix +:+ msg_UUID msg in
  match msgpack_Marshal m1 with
  | inr e => (Some e, [])
  | inl b =>
    match msgpack_Marshal (stamp (time_Now h) StatusRetrying m1) with
    | inr e => (Some e, [])
    | inl v =>
      match res_Set (srv_results s) h key v with
      | Some e => (Some e, [EvSet key v (Some e)])
      | None =>
        let r := brk_Enqueue (srv_broker s) (h ++ [EvSet key v None]) b (msg_Queue msg) in
        (r, [EvSet key v None; EvEnqueue b (msg_Queue msg) r])
      end
    end
  end.
Proof.
  unfold retryJob, incremented; simpl.
  destruct (msgpack_Marshal (set_Retried _ msg)) as [b|e]; [|done].
  unfold bind, statusRetrying. rewrite setJobMessage_run; simpl.
  destruct (msgpack_Marshal (stamp _ _ _)) as [v|e]; simpl; [|done].
  by destruct (res_Set _ _ _ _).
Qed.

(** [execJob] when the handler returns an error: the retry-or-fail
    decision and what follows it. *)
Lemma execJob_error (s : Server) (msg : JobMessage) (task : Task) (h : History) e :
  handler_answer s msg task h = Some e ->
  execJob s msg task h =
  if negb (msg_MaxRetry msg =? msg_Retried msg) then
    let pre := handler_trace s msg task h
               ++ hook_trace HookRetrying (topts_RetryingCB (task_opts task)) (jobCtx s msg) in
    let w := retryJob s (set_PrevErr e msg) (h ++ pre) in
    (w.1, pre ++ w.2)
  else
    let pre := handler_trace s msg task h
               ++ hook_trace HookFailed (topts_FailedCB (task_opts task)) (jobCtx s msg) in
    let w := statusFailed s (set_PrevErr e msg) (h ++ pre) in
    (w.1, pre ++ w.2).
Proof.
  intros Hans. unfold execJob, bind. rewrite run_callback_run.
  unfold run_handler, call, handler_trace.
  fold (handler_answer s msg task h). rewrite Hans.
  simpl msg_MaxRetry; simpl msg_Retried.
  destruct (negb _); rewrite run_callback_run; simpl;
    rewrite <- ?app_assoc; simpl.
  - destruct (retryJob _ _ _) as [r tr]; simpl. by rewrite <- ?app_assoc.
  - destruct (statusFailed _ _ _) as [r tr]; simpl. by rewrite <- ?app_assoc.
Qed.

(** [execJob] when the handler returns nil. *)
Lemma execJob_success (s : Server) (msg : JobMessage) (task : Task) (h : History) :
  handler_answer s msg task h = None ->
  execJob s msg task h =
  let pre := handler_trace s msg task h
             ++ hook_trace HookSuccess (topts_SuccessCB (task_opts task)) (jobCtx s msg) in
  match job_OnSuccess (msg_Job msg) with
  | Some nj =>
    let meta := set_PrevJobResults (ctx_results (jobCtx s msg)) (DefaultMeta (job_Opts nj)) in
    let w := enqueueWithMeta s nj meta (h ++ pre) in
    match w.1.2 with
    | Some e => (Some e, pre ++ w.2)
    | None =>
      let d := statusDone s (set_OnSuccessUUID w.1.1 msg) (h ++ pre ++ w.2) in
      (d.1, pre ++ w.2 ++ d.2)
    end
  | None =>
    let d := statusDone s msg (h ++ pre) in
    (d.1, pre ++ d.2)
  end.
Proof.
  intros Hans. unfold execJob, bind. rewrite run_callback_run.
  unfold run_handler, call, handler_trace.
  fold (handler_answer s msg task h). rewrite Hans.
  rewrite run_callback_run; simpl.
  destruct (job_OnSuccess (msg_Job msg)) as [nj|]; simpl;
    rewrite <- ?app_assoc; simpl.
  - destruct (enqueueWithMeta _ _ _ _) as [[uuid err] tw]; simpl.
    rewrite ?app_nil_r. destruct err as [e|]; simpl.
    + by rewrite ?app_nil_r, <- ?app_assoc.
    + rewrite <- ?app_assoc; simpl.
      destruct (statusDone _ _ _) as [r td]; simpl. by rewrite <- ?app_assoc.
  - rewrite ?app_nil_r.
    destruct (statusDone _ _ _) as [r td]; simpl. by rewrite <- ?app_assoc.
Qed.

(** ** Retry *)

Lemma uint32_small (x : Z) : 0 <= x < 2 ^ 32 -> uint32 x = x.
Proof. intros H. unfold uint32. by apply Z.mod_small. Qed.

Lemma incremented_PrevErr (e : string) (msg : JobMessage) :
  incremented (set_PrevErr e msg)
  = set_Retried (uint32 (msg_Retried msg + 1)) (set_PrevErr e msg).
Proof. reflexivity. Qed.

(** The calls of [retryJob], one by one. *)
Lemma retryJob_trace (s : Server) (msg : JobMessage) (h : History) ev :
  ev ∈ (retryJob s msg h).2 ->
  exists b v,
    msgpack_Marshal (incremented msg) = inl b
    /\ msgpack_Marshal (stamp (time_Now h) StatusRetrying (incremented msg)) = inl v
    /\ ((exists r, ev = EvSet (jobPrefix +:+ msg_UUID msg) v r)
        \/ (exists r, ev = EvEnqueue b (msg_Queue msg) r
              /\ (retryJob s msg h).2
                 = [EvSet (jobPrefix +:+ msg_UUID msg) v None; ev])).
Proof.
  rewrite retryJob_run; simpl.
  destruct (msgpack_Marshal (incremented msg)) as [b|e]; simpl;
    [|intros H; in_trace].
  destruct (msgpack_Marshal (stamp _ _ _)) as [v|e]; simpl;
    [|intros H; in_trace].
  destruct (res_Set _ _ _ _) as [e|]; simpl; intros H; in_trace; subst;
    exists b, v; eauto 8.
Qed.

(** C1, as the code has it.  When the handler returns an error and
    [retried < maxRetry], the worker sets [prevErr] to the error string
    and increments [retried] by exactly 1.  If that message marshals, it
    writes the [retrying] state; only if that write returns no error does
    it call [broker.Enqueue], with the bytes of the incremented message
    and on [msg.Queue].  So the state write has happened whenever the
    broker is called, whatever the broker answers. *)
Theorem execJob_retry_below_max (s : Server) (msg : JobMessage) (task : Task)
    (h : History) (e : string) :
  handler_answer s msg task h = Some e ->
  0 <= msg_Retried msg < msg_MaxRetry msg ->
  msg_MaxRetry msg < 2 ^ 32 ->
  let pre := handler_trace s msg task h
             ++ hook_trace HookRetrying (topts_RetryingCB (task_opts task)) (jobCtx s msg) in
  let m1 := set_Retried (msg_Retried msg + 1) (set_PrevErr e msg) in
  let key := jobPrefix +:+ msg_UUID msg in
  execJob s msg task h =
  match msgpack_Marshal m1 with
  | inr e' => (Some e', pre)
  | inl b =>
    match msgpack_Marshal (stamp (time_Now (h ++ pre)) StatusRetrying m1) with
    | inr e' => (Some e', pre)
    | inl v =>
      match res_Set (srv_results s) (h ++ pre) key v with
      | Some e' => (Some e', pre ++ [EvSet key v (Some e')])
      | None =>
        let r := brk_Enqueue (srv_broker s) (h ++ pre ++ [EvSet key v None]) b
                   (msg_Queue msg) in
        (r, pre ++ [EvSet key v None; EvEnqueue b (msg_Queue msg) r])
      end
    end
  end.
Proof.
  intros Hans Hlt Hmax pre m1 key.
  rewrite (execJob_error _ _ _ _ _ Hans).
  destruct (Z.eqb_spec (msg_MaxRetry msg) (msg_Retried msg)) as [Heq|_]; [lia|].
  simpl negb. cbv iota. fold pre. cbv zeta.
  rewrite retryJob_run, incremented_PrevErr, uint32_small by lia.
  simpl msg_UUID; simpl msg_Queue. fold m1 key. cbv zeta.
  destruct (msgpack_Marshal m1) as [b|e']; simpl; [|by rewrite app_nil_r].
  destruct (msgpack_Marshal (stamp _ _ m1)) as [v|e']; simpl;
    [|by rewrite app_nil_r].
  destruct (res_Set _ _ _ _) as [e'|]; simpl; [done|].
  by rewrite <- app_assoc.
Qed.

(** C9, as the code has it.  The decision tests only whether [retried]
    and [maxRetry] are equal: when they differ, whichever is larger, a
    handler error leads to [retryJob] on the message with [prevErr] set,
    never to the failed index or the [failed] state.  [retryJob]
    increments [retried]; the only state it writes is [retrying]; and it
    re-enqueues the incremented message when that message marshals and the
    state write returns no error. *)
Theorem execJob_retry_unless_equal (s : Server) (msg : JobMessage) (task : Task)
    (h : History) (e : string) :
  handler_answer s msg task h = Some e ->
  msg_Retried msg <> msg_MaxRetry msg ->
  let pre := handler_trace s msg task h
             ++ hook_trace HookRetrying (topts_RetryingCB (task_opts task)) (jobCtx s msg) in
  let m1 := incremented (set_PrevErr e msg) in
  let key := jobPrefix +:+ msg_UUID msg in
  let tr := (execJob s msg task h).2 in
  execJob s msg task h
  = ((retryJob s (set_PrevErr e msg) (h ++ pre)).1,
     pre ++ (retryJob s (set_PrevErr e msg) (h ++ pre)).2)
  /\ msg_Retried m1 = uint32 (msg_Retried msg + 1)
  /\ msg_PrevErr m1 = e
  /\ (forall ev, ev ∈ tr -> is_index_write ev = false)
  /\ (forall k v r, EvSet k v r ∈ tr ->
        k = key
        /\ msgpack_Marshal (stamp (time_Now (h ++ pre)) StatusRetrying m1) = inl v)
  /\ (forall b q r, EvEnqueue b q r ∈ tr ->
        msgpack_Marshal m1 = inl b /\ q = msg_Queue msg)
  /\ (forall b v,
        msgpack_Marshal m1 = inl b ->
        msgpack_Marshal (stamp (time_Now (h ++ pre)) StatusRetrying m1) = inl v ->
        res_Set (srv_results s) (h ++ pre) key v = None ->
        exists r, tr = pre ++ [EvSet key v None; EvEnqueue b (msg_Queue msg) r]).
Proof.
  intros Hans Hne pre m1 key tr.
  assert (Hrun : execJob s msg task h
    = ((retryJob s (set_PrevErr e msg) (h ++ pre)).1,
       pre ++ (retryJob s (set_PrevErr e msg) (h ++ pre)).2)).
  { rewrite (execJob_error _ _ _ _ _ Hans).
    by destruct (Z.eqb_spec (msg_MaxRetry msg) (msg_Retried msg)) as [Heq|_]. }
  assert (Hpre : forall ev, ev ∈ pre ->
    is_index_write ev = false /\ is_state_write ev = false /\ is_enqueue ev = false).
  { intros ev H. unfold pre in H. in_trace.
    - by apply handler_trace_events in H as [->| ->].
    - by apply hook_trace_no_store_write in H as ->. }
  split; [exact Hrun|]. split; [done|]. split; [done|].
  unfold tr. rewrite Hrun. simpl. repeat split.
  - intros ev H. in_trace; [by apply Hpre|].
    by apply retryJob_trace in H as (b & v & _ & _ & [[r ->]|[r [-> _]]]).
  - apply elem_of_app in H as [H|H]; [by apply Hpre in H as (_ & ? & _)|].
    by apply retryJob_trace in H as (b & v' & _ & _ & [[r' [= -> _ _]]|[r' [? _]]]).
  - apply elem_of_app in H as [H|H]; [by apply Hpre in H as (_ & ? & _)|].
    by apply retryJob_trace in H as (b & v' & _ & Hv & [[r' [= _ -> _]]|[r' [? _]]]).
  - apply elem_of_app in H as [H|H]; [by apply Hpre in H as (_ & _ & ?)|].
    by apply retryJob_trace in H as (b' & v & Hb & _ & [[r' ?]|[r' [[= -> _ _] _]]]).
  - apply elem_of_app in H as [H|H]; [by apply Hpre in H as (_ & _ & ?)|].
    by apply retryJob_trace in H as (b' & v & Hb & _ & [[r' ?]|[r' [[= _ -> _] _]]]).
  - intros b v Hb Hv Hset. rewrite retryJob_run. fold m1. simpl msg_UUID.
    fold key. cbv zeta. rewrite Hb, Hv, Hset. simpl. eauto.
Qed.

(** C10.  The bytes [retryJob] hands to [broker.Enqueue] are those of the
    message with [retried] incremented and with the status and the
    [processedAt] it was given: they are marshalled before
    [statusRetrying] runs, and [statusRetrying] stamps a copy.  The
    [retrying] status and its timestamp are only in the bytes written to
    the results store.  The same holds from [execJob], for the message as
    the worker decoded it. *)
Theorem retryJob_wire_bytes (s : Server) (msg : JobMessage) (h : History) :
  let m1 := incremented msg in
  let stored := stamp (time_Now h) StatusRetrying m1 in
  let key := jobPrefix +:+ msg_UUID msg in
  (msg_Status m1 = msg_Status msg
   /\ msg_ProcessedAt m1 = msg_ProcessedAt msg
   /\ msg_Retried m1 = uint32 (msg_Retried msg + 1)
   /\ (0 <= msg_Retried msg < 2 ^ 32 - 1 -> msg_Retried m1 = msg_Retried msg + 1))
  /\ (msg_Status stored = StatusRetrying /\ msg_ProcessedAt stored = time_Now h)
  /\ (forall b q r, EvEnqueue b q r ∈ (retryJob s msg h).2 ->
        msgpack_Marshal m1 = inl b /\ q = msg_Queue msg
        /\ exists v, msgpack_Marshal stored = inl v
             /\ (retryJob s msg h).2 = [EvSet key v None; EvEnqueue b q r])
  /\ (forall k v r, EvSet k v r ∈ (retryJob s msg h).2 ->
        k = key /\ msgpack_Marshal stored = inl v)
  /\ (forall task e b q r,
        handler_answer s msg task h = Some e ->
        EvEnqueue b q r ∈ (execJob s msg task h).2 ->
        msgpack_Marshal (incremented (set_PrevErr e msg)) = inl b
        /\ msg_Status (incremented (set_PrevErr e msg)) = msg_Status msg
        /\ msg_ProcessedAt (incremented (set_PrevErr e msg)) = msg_ProcessedAt msg).
Proof.
  intros m1 stored key.
  split; [repeat split; intros H; simpl; by rewrite uint32_small by lia|].
  split; [done|]. split; [|split].
  - intros b q r H.
    apply retryJob_trace in H as (b' & v & Hb & Hv & [[r' ?]|[r' [[= -> -> ->] Htr]]]);
      [done|]. eauto.
  - intros k v r H.
    by apply retryJob_trace in H as (b' & v' & Hb & Hv & [[r' [= -> -> _]]|[r' [? _]]]).
  - intros task e b q r Hans H.
    rewrite (execJob_error _ _ _ _ _ Hans) in H.
    destruct (negb _); simpl in H; in_trace.
    + by apply handler_trace_events in H as [?|?].
    + by apply hook_trace_no_store_write in H.
    + by apply retryJob_trace in H as (b' & v & Hb & _ & [[r' ?]|[r' [[= -> _ _] _]]]).
    + by apply handler_trace_events in H as [?|?].
    + by apply hook_trace_no_store_write in H.
    + rewrite statusFailed_run in H.
      destruct (res_SetFailed _ _ _); simpl in H; in_trace.
      by apply setJobMessage_trace in H as (? & _ & ? & _).
Qed.

(** ** Failure *)

(** C2, as the code has it.  When the handler returns an error and
    [retried = maxRetry], the worker calls [SetFailed] on the uuid and
    never the broker.  If the index write returns no error and the
    message, stamped [failed] and with [prevErr] the handler's error
    string, marshals, it then writes that state; if the index write
    returns an error, nothing more is written. *)
Theorem execJob_fails_at_max (s : Server) (msg : JobMessage) (task : Task)
    (h : History) (e : string) :
  handler_answer s msg task h = Some e ->
  msg_Retried msg = msg_MaxRetry msg ->
  let pre := handler_trace s msg task h
             ++ hook_trace HookFailed (topts_FailedCB (task_opts task)) (jobCtx s msg) in
  let u := msg_UUID msg in
  let key := jobPrefix +:+ u in
  let failed := stamp (time_Now (h ++ pre)) StatusFailed (set_PrevErr e msg) in
  execJob s msg task h =
  match res_SetFailed (srv_results s) (h ++ pre) u with
  | Some e' => (Some e', pre ++ [EvSetFailed u (Some e')])
  | None =>
    match msgpack_Marshal failed with
    | inr e' => (Some e', pre ++ [EvSetFailed u None])
    | inl v =>
      let r := res_Set (srv_results s) (h ++ pre ++ [EvSetFailed u None]) key v in
      (r, pre ++ [EvSetFailed u None; EvSet key v r])
    end
  end
  /\ (msg_Status failed = StatusFailed /\ msg_PrevErr failed = e)
  /\ (forall ev, ev ∈ (execJob s msg task h).2 -> is_enqueue ev = false).
Proof.
  intros Hans Heq pre u key failed.
  assert (Hrun : execJob s msg task h
    = ((statusFailed s (set_PrevErr e msg) (h ++ pre)).1,
       pre ++ (statusFailed s (set_PrevErr e msg) (h ++ pre)).2)).
  { rewrite (execJob_error _ _ _ _ _ Hans).
    by destruct (Z.eqb_spec (msg_MaxRetry msg) (msg_Retried msg)) as [_|Hne]. }
  rewrite Hrun, statusFailed_run. simpl msg_UUID. fold u failed.
  destruct (res_SetFailed (srv_results s) (h ++ pre) u) as [e'|]; simpl.
  - repeat split; [].
    intros ev H. unfold pre in H. in_trace; subst; try done.
    + by apply handler_trace_events in H as [->| ->].
    + by apply hook_trace_no_store_write in H as ->.
  - rewrite setJobMessage_run. simpl msg_UUID. fold u key.
    rewrite <- app_assoc.
    destruct (msgpack_Marshal failed) as [v|e']; simpl; repeat split;
      intros ev H; unfold pre in H; in_trace; subst; try done;
      try (by apply handler_trace_events in H as [->| ->]);
      by apply hook_trace_no_store_write in H as ->.
Qed.

(** ** Chain continuation *)

(** The calls of [enqueueWithMeta]: the write of the queued record of the
    new job, then its hand-over to the broker or the scheduler. *)
Lemma enqueueWithMeta_trace (s : Server) (t : Job) (meta : Meta) (h : History) ev :
  ev ∈ (enqueueWithMeta s t meta h).2 ->
  exists b, msgpack_Marshal (queued_message t meta h) = inl b
    /\ ((exists r, ev = EvSet (jobPrefix +:+ uuid_New h) b r)
        \/ (exists q r, ev = EvEnqueue b q r)
        \/ (exists sp q r, ev = EvSchedule sp b q r)).
Proof.
  unfold enqueueWithMeta. fold (queued_message t meta h).
  destruct (msgpack_Marshal (queued_message t meta h)) as [b|e]; simpl;
    [|intros H; in_trace].
  unfold bind, results_Set, call; simpl.
  destruct (res_Set _ _ _ _) as [e|]; simpl.
  - intros H. in_trace. subst. eauto.
  - destruct (String.eqb (jopts_Schedule (job_Opts t)) ""); simpl;
      unfold broker_Enqueue, call; simpl.
    + destruct (brk_Enqueue _ _ _ _); simpl; intros H; in_trace; subst; eauto 8.
    + intros H; in_trace; subst; eauto 8.
Qed.

(** The calls of [statusDone]: the index write first, then at most the
    write of the message stamped [successful]. *)
Lemma statusDone_writes (s : Server) (t : JobMessage) (h : History) :
  (exists r tr, (statusDone s t h).2 = EvSetSuccess (msg_UUID t) r :: tr)
  /\ (forall k v r, EvSet k v r ∈ (statusDone s t h).2 ->
        k = jobPrefix +:+ msg_UUID t
        /\ msgpack_Marshal (stamp (time_Now h) StatusDone t) = inl v).
Proof.
  rewrite statusDone_run.
  destruct (res_SetSuccess (srv_results s) h (msg_UUID t)) as [e|]; simpl.
  - split; [eauto|]. intros k v r H. in_trace.
  - split; [eauto|]. intros k v r H. in_trace.
    apply setJobMessage_trace in H as (b & Hb & Hev & _).
    injection Hev as -> -> _. by rewrite Hb.
Qed.

(** C3.  When the handler returns nil and the job has a successor, the
    worker calls [enqueueWithMeta] for the successor before anything of
    [statusDone].  If that returns an error, [execJob] returns it and
    makes no further call: the trace has no index write, and its only
    state write, if any, is the queued record of the successor.  If it
    returns a uuid, [statusDone] then runs on the parent with
    [OnSuccessUUID] set to that uuid, and every state it writes is the
    parent stamped [successful] with that uuid in it. *)
Theorem execJob_successor_before_done (s : Server) (msg : JobMessage)
    (task : Task) (h : History) (nj : Job) :
  handler_answer s msg task h = None ->
  job_OnSuccess (msg_Job msg) = Some nj ->
  let pre := handler_trace s msg task h
             ++ hook_trace HookSuccess (topts_SuccessCB (task_opts task)) (jobCtx s msg) in
  let meta := set_PrevJobResults (ctx_results (jobCtx s msg)) (DefaultMeta (job_Opts nj)) in
  let w := enqueueWithMeta s nj meta (h ++ pre) in
  let parent := set_OnSuccessUUID w.1.1 msg in
  let d := statusDone s parent (h ++ pre ++ w.2) in
  (forall ev, ev ∈ pre -> is_store_write ev = false)
  /\ (forall e, w.1.2 = Some e ->
        execJob s msg task h = (Some e, pre ++ w.2)
        /\ (forall ev, ev ∈ (execJob s msg task h).2 -> is_index_write ev = false)
        /\ (forall k v r, EvSet k v r ∈ (execJob s msg task h).2 ->
              msgpack_Marshal (queued_message nj meta (h ++ pre)) = inl v))
  /\ (w.1.2 = None ->
        execJob s msg task h = (d.1, pre ++ w.2 ++ d.2)
        /\ msg_OnSuccessUUID parent = w.1.1
        /\ (exists r tr, d.2 = EvSetSuccess (msg_UUID msg) r :: tr)
        /\ (forall k v r, EvSet k v r ∈ d.2 ->
              k = jobPrefix +:+ msg_UUID msg
              /\ msgpack_Marshal
                   (stamp (time_Now (h ++ pre ++ w.2)) StatusDone parent) = inl v)).
Proof.
  intros Hans Hnext pre meta w parent d.
  pose proof (execJob_success _ _ _ _ Hans) as Hrun.
  rewrite Hnext in Hrun. cbv zeta in Hrun. fold pre meta w in Hrun.
  assert (Hpre : forall ev, ev ∈ pre ->
    is_store_write ev = false /\ is_index_write ev = false /\ is_state_write ev = false).
  { intros ev H. unfold pre in H. in_trace.
    - by apply handler_trace_events in H as [->| ->].
    - by apply hook_trace_no_store_write in H as ->. }
  split; [intros ev H; by apply Hpre|]. split.
  - intros e He. rewrite He in Hrun. rewrite Hrun. simpl.
    split; [done|]. split.
    + intros ev H. in_trace; [by apply Hpre|].
      by apply enqueueWithMeta_trace
        in H as (b & _ & [[r ->]|[(q & r & ->)|(sp & q & r & ->)]]).
    + intros k v r H. in_trace; [by apply Hpre in H as (_ & _ & ?)|].
      by apply enqueueWithMeta_trace
        in H as (b & Hb & [[r' [= _ -> _]]|[(q & r' & ?)|(sp & q & r' & ?)]]).
  - intros Hok. rewrite Hok in Hrun. fold parent d in Hrun.
    split; [exact Hrun|]. split; [done|].
    destruct (statusDone_writes s parent (h ++ pre ++ w.2)) as [Hfirst Hset].
    split; [exact Hfirst|].
    intros k v r H. by apply Hset in H as [-> ->].
Qed.

(** ** The worker *)

Lemma statusProcessing_trace (s : Server) (msg : JobMessage) (h : History) ev :
  ev ∈ (statusProcessing s msg h).2 ->
  exists b r, ev = EvSet (jobPrefix +:+ msg_UUID msg) b r
    /\ msgpack_Marshal (stamp (time_Now h) StatusProcessing msg) = inl b.
Proof.
  unfold statusProcessing. intros H.
  apply setJobMessage_trace in H as (b & Hb & -> & _). eauto.
Qed.

Lemma processWork_run (s : Server) (work : bytes) (h : History) :
  processWork s work h =
  match msgpack_Unmarshal work with
  | inr _ => (tt, [])
  | inl msg =>
    match getHandler s (job_Task (msg_Job msg)) with
    | inr _ => (tt, [])
    | inl task =>
      let p := statusProcessing s msg h in
      match p.1 with
      | Some _ => (tt, p.2)
      | None => (tt, p.2 ++ (execJob s msg task (h ++ p.2)).2)
      end
    end
  end.
Proof.
  unfold processWork.
  destruct (msgpack_Unmarshal work) as [msg|e]; [|done].
  destruct (getHandler s _) as [task|e]; [|done].
  unfold bind. destruct (statusProcessing s msg h) as [[e|] tp]; simpl.
  - by rewrite app_nil_r.
  - destruct (execJob _ _ _ _) as [r te]; simpl. by rewrite app_nil_r.
Qed.

(** A handler call in the trace of one message has passed the three checks. *)
Lemma processWork_handler_call (s : Server) (work : bytes) (h : History) ev :
  ev ∈ (processWork s work h).2 -> is_handler_call ev = true ->
  exists msg task,
    msgpack_Unmarshal work = inl msg
    /\ getHandler s (job_Task (msg_Job msg)) = inl task
    /\ (statusProcessing s msg h).1 = None.
Proof.
  rewrite processWork_run. cbv zeta. intros H Hcall.
  destruct (msgpack_Unmarshal work) as [msg|e]; [|simpl in H; in_trace].
  destruct (getHandler s _) as [task|e] eqn:Htask; [|simpl in H; in_trace].
  exists msg, task. repeat split; [done|].
  pose proof (statusProcessing_trace s msg h ev) as Htr.
  destruct (statusProcessing s msg h) as [[e|] tp]; [|done].
  simpl in H, Htr. by apply Htr in H as (b & r & -> & _).
Qed.

Lemma process_cons (s : Server) (work : bytes) (w : list bytes) (h : History) :
  process s (work :: w) h
  = (tt, (processWork s work h).2
         ++ (process s w (h ++ (processWork s work h).2)).2).
Proof.
  simpl. unfold bind.
  destruct (processWork s work h) as [[] t1]; simpl.
  by destruct (process s w (h ++ t1)) as [[] t2].
Qed.

(** The same over the loop of [process], by induction on the deliveries. *)
Lemma process_handler_call (s : Server) (w : list bytes) :
  forall (h : History) ev,
    ev ∈ (process s w h).2 -> is_handler_call ev = true ->
    exists work msg task h',
      work ∈ w
      /\ msgpack_Unmarshal work = inl msg
      /\ getHandler s (job_Task (msg_Job msg)) = inl task
      /\ (statusProcessing s msg h').1 = None.
Proof.
  induction w as [|work w IH]; intros h ev H Hcall.
  - simpl in H. in_trace.
  - rewrite process_cons in H. simpl in H. apply elem_of_app in H as [H|H].
    + destruct (processWork_handler_call _ _ _ _ H Hcall) as (msg & task & ?).
      exists work, msg, task, h. split; [apply elem_of_cons; by left|done].
    + destruct (IH _ _ H Hcall) as (work' & msg & task & h' & Hin & ?).
      exists work', msg, task, h'. split; [apply elem_of_cons; by right|done].
Qed.

(** C6.  For a raw message [work]: a handler call is in the trace only if
    [work] decodes, its task name is registered and the [processing]
    state write returned no error.  When decoding fails or the task is
    unknown, the worker makes no call at all.  When the [processing]
    write returns an error, the trace is that of the write attempt alone,
    with no handler call.  When all three succeed the handler is called.
    The first holds for every message the loop of [process] receives. *)
Theorem processWork_guards (s : Server) (work : bytes) (h : History) :
  (forall ev, ev ∈ (processWork s work h).2 -> is_handler_call ev = true ->
     exists msg task,
       msgpack_Unmarshal work = inl msg
       /\ getHandler s (job_Task (msg_Job msg)) = inl task
       /\ (statusProcessing s msg h).1 = None)
  /\ (forall e, msgpack_Unmarshal work = inr e -> processWork s work h = (tt, []))
  /\ (forall msg e,
        msgpack_Unmarshal work = inl msg ->
        getHandler s (job_Task (msg_Job msg)) = inr e ->
        processWork s work h = (tt, []))
  /\ (forall msg task e,
        msgpack_Unmarshal work = inl msg ->
        getHandler s (job_Task (msg_Job msg)) = inl task ->
        (statusProcessing s msg h).1 = Some e ->
        processWork s work h = (tt, (statusProcessing s msg h).2)
        /\ forall ev, ev ∈ (processWork s work h).2 -> is_handler_call ev = false)
  /\ (forall msg task,
        msgpack_Unmarshal work = inl msg ->
        getHandler s (job_Task (msg_Job msg)) = inl task ->
        (statusProcessing s msg h).1 = None ->
        exists ev, ev ∈ (processWork s work h).2 /\ is_handler_call ev = true)
  /\ (forall (w : list bytes) ev,
        ev ∈ (process s w h).2 -> is_handler_call ev = true ->
        exists work' msg task h',
          work' ∈ w
          /\ msgpack_Unmarshal work' = inl msg
          /\ getHandler s (job_Task (msg_Job msg)) = inl task
          /\ (statusProcessing s msg h').1 = None).
Proof.
  split; [intros ev; apply processWork_handler_call|].
  split; [|split; [|split; [|split]]]; [..|intros w ev; apply process_handler_call];
    rewrite processWork_run; cbv zeta.
  - by intros e ->.
  - intros msg e -> ->. done.
  - intros msg task e -> -> ->. split; [done|]. simpl. intros ev H.
    by apply statusProcessing_trace in H as (b & r & -> & _).
  - intros msg task -> -> ->. simpl.
    destruct (handler_answer s msg task (h ++ (statusProcessing s msg h).2))
      as [e|] eqn:Hans.
    + rewrite (execJob_error _ _ _ _ _ Hans).
      eexists (EvHandler _ _ _ _). split; [|done].
      apply elem_of_app; right.
      destruct (negb _); simpl; unfold handler_trace; rewrite <- !app_assoc;
        apply elem_of_app; right; apply elem_of_app; left;
        apply elem_of_cons; by left.
    + rewrite (execJob_success _ _ _ _ Hans).
      eexists (EvHandler _ _ _ _). split; [|done].
      apply elem_of_app; right.
      destruct (job_OnSuccess _); simpl; [destruct (_.1.2); simpl|];
        unfold handler_trace; rewrite <- !app_assoc;
        apply elem_of_app; right; apply elem_of_app; left;
        apply elem_of_cons; by left.
Qed.

(** ** Results of a job *)

Lemma GetResult_run (s : Server) (uuid : string) (h : History) :
  GetResult s uuid h =
  let g := res_Get (srv_results s) h (resultsPrefix +:+ uuid) in
  (([],
    match g.2 with
    | Some e => Some e
    | None => msgpack_Unmarshal_value g.1 []
    end),
   [EvGet (resultsPrefix +:+ uuid) g]).
Proof.
  unfold GetResult, bind, results_Get, call; simpl.
  destruct (res_Get _ _ _) as [b [e|]]; simpl; [done|].
  by destruct (msgpack_Unmarshal_value b []).
Qed.

End Lifecycle.

(** ** Runs of the model *)

(** C5: [GetResult] never returns a blob.  [d] is handed to
    [msgpack.Unmarshal] by value, so whatever the record holds and whatever
    the decoder answers, the sequence returned is the empty one [d] was
    declared with; with msgpack's answer to a destination that is no
    pointer, the record of a job that saved ["7"] comes back as an error. *)
Theorem GetResult_returns_no_blobs :
  (forall (L : Libs) (s : Server) (uuid : string) (h : History),
      (GetResult s uuid h).1.1 = []
      /\ (GetResult s uuid h).2
         = [EvGet (resultsPrefix +:+ uuid)
              (res_Get (srv_results s) h (resultsPrefix +:+ uuid))])
  /\ GetResult (L := toyLibs)
       (toy_server (const_store saved_seven None None None) (const_broker None))
       "u1" []
     = (([], Some "msgpack: Decode(non-pointer [][]uint8)"),
        [EvGet "result:u1" (saved_seven, None)]).
Proof.
  split; [|reflexivity].
  intros L s uuid h. by rewrite GetResult_run.
Qed.

Section Runs.
#[local] Existing Instance toyLibs.

(** A retry with a store that refuses the state write: nothing reaches
    the broker. *)
Lemma retry_dropped_when_state_write_fails :
  handler_answer (toy_server store_down (const_broker None)) (toy_msg 0 2 None)
    (toy_task boom) [] = boom
  /\ msg_Retried (toy_msg 0 2 None) < msg_MaxRetry (toy_msg 0 2 None)
  /\ execJob (toy_server store_down (const_broker None)) (toy_msg 0 2 None)
       (toy_task boom) []
     = (Some "store down",
        [toy_call boom;
         EvSet "msg:u1"
           (toy_bytes (stamp 1 StatusRetrying
              (set_Retried 1 (set_PrevErr "boom" (toy_msg 0 2 None)))))
           (Some "store down")])
  /\ existsb is_enqueue
       (execJob (toy_server store_down (const_broker None)) (toy_msg 0 2 None)
          (toy_task boom) []).2 = false.
Proof. repeat split. Qed.

Lemma execJob_retry_below_max_witness :
  handler_answer (toy_server good_store (const_broker None)) (toy_msg 0 2 None)
    (toy_task boom) [] = boom
  /\ 0 <= msg_Retried (toy_msg 0 2 None) < msg_MaxRetry (toy_msg 0 2 None)
  /\ msg_MaxRetry (toy_msg 0 2 None) < 2 ^ 32
  /\ execJob (toy_server good_store (const_broker None)) (toy_msg 0 2 None)
       (toy_task boom) []
     = (None,
        [toy_call boom;
         EvSet "msg:u1"
           (toy_bytes (stamp 1 StatusRetrying
              (set_Retried 1 (set_PrevErr "boom" (toy_msg 0 2 None)))))
           None;
         EvEnqueue (toy_bytes (set_Retried 1 (set_PrevErr "boom" (toy_msg 0 2 None))))
           DefaultQueue None]).
Proof.
  assert (Ha : handler_answer (toy_server good_store (const_broker None))
                 (toy_msg 0 2 None) (toy_task boom) [] = boom) by reflexivity.
  assert (Hr : 0 <= msg_Retried (toy_msg 0 2 None) < msg_MaxRetry (toy_msg 0 2 None))
    by (simpl; lia).
  assert (Hm : msg_MaxRetry (toy_msg 0 2 None) < 2 ^ 32) by reflexivity.
  split; [exact Ha|]. split; [exact Hr|]. split; [exact Hm|].
  rewrite (execJob_retry_below_max _ _ _ _ _ Ha Hr Hm). reflexivity.
Defined.

(** A retry with a broker that refuses the message: the [retrying]
    state is already written. *)
Example retry_state_written_when_broker_fails :
  execJob (toy_server good_store (const_broker (Some "broker down")))
    (toy_msg 0 2 None) (toy_task boom) []
  = (Some "broker down",
     [toy_call boom;
      EvSet "msg:u1"
        (toy_bytes (stamp 1 StatusRetrying
           (set_Retried 1 (set_PrevErr "boom" (toy_msg 0 2 None)))))
        None;
      EvEnqueue (toy_bytes (set_Retried 1 (set_PrevErr "boom" (toy_msg 0 2 None))))
        DefaultQueue (Some "broker down")]).
Proof. reflexivity. Qed.

(** A retry with [retried] above [maxRetry] and a store that refuses the
    state write: nothing reaches the broker. *)
Lemma retry_above_max_dropped_when_state_write_fails :
  handler_answer (toy_server store_down (const_broker None)) (toy_msg 5 2 None)
    (toy_task boom) [] = boom
  /\ msg_Retried (toy_msg 5 2 None) <> msg_MaxRetry (toy_msg 5 2 None)
  /\ (execJob (toy_server store_down (const_broker None)) (toy_msg 5 2 None)
        (toy_task boom) []).1 = Some "store down"
  /\ map is_enqueue
       (execJob (toy_server store_down (const_broker None)) (toy_msg 5 2 None)
          (toy_task boom) []).2 = [false; false].
Proof. repeat split. discriminate. Qed.

Lemma execJob_retry_unless_equal_witness :
  handler_answer (toy_server good_store (const_broker None)) (toy_msg 5 2 None)
    (toy_task boom) [] = boom
  /\ msg_Retried (toy_msg 5 2 None) <> msg_MaxRetry (toy_msg 5 2 None)
  /\ execJob (toy_server good_store (const_broker None)) (toy_msg 5 2 None)
       (toy_task boom) []
     = (None,
        [toy_call boom;
         EvSet "msg:u1"
           (toy_bytes (stamp 1 StatusRetrying
              (set_Retried 6 (set_PrevErr "boom" (toy_msg 5 2 None)))))
           None;
         EvEnqueue (toy_bytes (set_Retried 6 (set_PrevErr "boom" (toy_msg 5 2 None))))
           DefaultQueue None]).
Proof.
  assert (Ha : handler_answer (toy_server good_store (const_broker None))
                 (toy_msg 5 2 None) (toy_task boom) [] = boom) by reflexivity.
  assert (Hne : msg_Retried (toy_msg 5 2 None) <> msg_MaxRetry (toy_msg 5 2 None))
    by discriminate.
  split; [exact Ha|]. split; [exact Hne|].
  rewrite (proj1 (execJob_retry_unless_equal _ _ _ _ _ Ha Hne)). reflexivity.
Defined.

(** A failure with a store that refuses the index write: the [failed]
    state is not written. *)
Lemma failed_state_unwritten_when_index_write_fails :
  handler_answer (toy_server index_down (const_broker None)) (toy_msg 2 2 None)
    (toy_task boom) [] = boom
  /\ msg_Retried (toy_msg 2 2 None) = msg_MaxRetry (toy_msg 2 2 None)
  /\ execJob (toy_server index_down (const_broker None)) (toy_msg 2 2 None)
       (toy_task boom) []
     = (Some "index down", [toy_call boom; EvSetFailed "u1" (Some "index down")])
  /\ existsb is_state_write
       (execJob (toy_server index_down (const_broker None)) (toy_msg 2 2 None)
          (toy_task boom) []).2 = false.
Proof. repeat split. Qed.

Lemma execJob_fails_at_max_witness :
  handler_answer (toy_server good_store (const_broker None)) (toy_msg 2 2 None)
    (toy_task boom) [] = boom
  /\ msg_Retried (toy_msg 2 2 None) = msg_MaxRetry (toy_msg 2 2 None)
  /\ execJob (toy_server good_store (const_broker None)) (toy_msg 2 2 None)
       (toy_task boom) []
     = (None,
        [toy_call boom;
         EvSetFailed "u1" None;
         EvSet "msg:u1"
           (toy_bytes (stamp 1 StatusFailed (set_PrevErr "boom" (toy_msg 2 2 None))))
           None]).
Proof.
  assert (Ha : handler_answer (toy_server good_store (const_broker None))
                 (toy_msg 2 2 None) (toy_task boom) [] = boom) by reflexivity.
  assert (He : msg_Retried (toy_msg 2 2 None) = msg_MaxRetry (toy_msg 2 2 None))
    by reflexivity.
  split; [exact Ha|]. split; [exact He|].
  rewrite (proj1 (execJob_fails_at_max _ _ _ _ _ Ha He)). reflexivity.
Defined.

(** A job with a successor, on a store and a broker that accept every
    call: the successor is written and enqueued under a fresh uuid, which
    the parent then carries in its [successful] state. *)
Lemma execJob_successor_before_done_witness :
  handler_answer (toy_server good_store (const_broker None))
    (toy_msg 0 0 (Some (toy_job None))) (toy_task None) [] = None
  /\ job_OnSuccess (msg_Job (toy_msg 0 0 (Some (toy_job None)))) = Some (toy_job None)
  /\ execJob (toy_server good_store (const_broker None))
       (toy_msg 0 0 (Some (toy_job None))) (toy_task None) []
     = (None,
        [toy_call None;
         EvSet "msg:n1" (toy_bytes (queued_message (toy_job None) (mkMeta []) [toy_call None])) None;
         EvEnqueue (toy_bytes (queued_message (toy_job None) (mkMeta []) [toy_call None]))
           DefaultQueue None;
         EvSetSuccess "u1" None;
         EvSet "msg:u1"
           (toy_bytes (stamp 3 StatusDone
              (set_OnSuccessUUID "n1" (toy_msg 0 0 (Some (toy_job None))))))
           None]).
Proof.
  assert (Ha : handler_answer (toy_server good_store (const_broker None))
                 (toy_msg 0 0 (Some (toy_job None))) (toy_task None) [] = None)
    by reflexivity.
  assert (Hn : job_OnSuccess (msg_Job (toy_msg 0 0 (Some (toy_job None))))
               = Some (toy_job None)) by reflexivity.
  split; [exact Ha|]. split; [exact Hn|].
  destruct (execJob_successor_before_done _ _ _ _ _ Ha Hn) as (_ & _ & Hok).
  rewrite (proj1 (Hok eq_refl)). reflexivity.
Defined.

(** A worker over three deliveries: bytes that do not decode, a job whose
    task is not registered, and a retry on a store that is down. *)
Example processWork_drops :
  processWork (toy_server good_store (const_broker None)) [Byte.xff] [] = (tt, [])
  /\ processWork (toy_server good_store (const_broker None)) [Byte.x00] [] = (tt, [])
  /\ map is_handler_call
       (processWork
          (RegisterTask (toy_server store_down (const_broker None)) "add"
             (fun _ _ _ => boom) (no_hooks 0 ""))
          [Byte.x00] []).2 = [false]
  /\ map is_handler_call
       (processWork
          (RegisterTask (toy_server good_store (const_broker None)) "add"
             (fun _ _ _ => boom) (no_hooks 0 ""))
          [Byte.x00] []).2 = [false; true; false; false].
Proof. repeat split. Qed.

End Runs.

(** ** Registering several tasks *)

Lemma count_if_app {A} (p : A -> bool) (l1 l2 : list A) :
  count_if p (l1 ++ l2) = (count_if p l1 + count_if p l2)%nat.
Proof. unfold count_if. by rewrite List.filter_app, length_app. Qed.

Lemma count_if_none {A} (p : A -> bool) (l : list A) :
  (forall x, x ∈ l -> p x = false) -> count_if p l = 0%nat.
Proof.
  unfold count_if. induction l as [|x l IH]; intros H; simpl; [done|].
  rewrite (H x) by (apply elem_of_cons; by left).
  apply IH. intros y Hy. apply H. apply elem_of_cons; by right.
Qed.

Lemma register_all_snoc (s : Server) (rs : list (string * handler * TaskOpts)) r :
  register_all s (rs ++ [r]) = RegisterTask (register_all s rs) r.1.1 r.1.2 r.2.
Proof. unfold register_all. by rewrite fold_left_app. Qed.

Lemma last_registration_snoc (name : string)
    (rs : list (string * handler * TaskOpts)) r :
  last_registration name (rs ++ [r])
  = if String.eqb r.1.1 name then Some (mkTask name r.1.2 (normalised r.2))
    else last_registration name rs.
Proof. unfold last_registration. by rewrite fold_left_app. Qed.

(** X1.  After any sequence of registrations, looking a name up gives the
    task of the last registration under that name, with its options
    normalised, and what the registry held before when there is none. *)
Theorem getHandler_register_all (s : Server)
    (rs : list (string * handler * TaskOpts)) (name : string) :
  getHandler (register_all s rs) name
  = match last_registration name rs with
    | Some t => inl t
    | None => getHandler s name
    end.
Proof.
  induction rs as [|r rs IH] using rev_ind; [done|].
  rewrite register_all_snoc, last_registration_snoc, RegisterTask_registers.
  destruct (String.eqb_spec r.1.1 name) as [<-|Hne].
  - apply getHandler_registerHandler.
  - by rewrite getHandler_registerHandler_ne.
Qed.

Lemma RegisterTask_keeps_registry_ok (s : Server) (name : string) (fn : handler)
    (opts : TaskOpts) :
  registry_ok s -> registry_ok (RegisterTask s name fn opts).
Proof.
  intros Hok k t. rewrite RegisterTask_registers. unfold registerHandler; simpl.
  destruct (decide (name = k)) as [<-|Hne].
  - rewrite lookup_insert_eq. intros [= <-]; simpl. split; [done|]. split.
    + destruct (Z.ltb_spec 0 (topts_Concurrency opts)); lia.
    + by destruct (String.eqb_spec (topts_Queue opts) "").
  - rewrite lookup_insert_ne by done. apply Hok.
Qed.

(** X2.  Registration keeps the registry well formed and touches nothing
    else of the server: after any sequence of [RegisterTask] every entry
    is stored under its own name, has a concurrency of at least 1 and a
    non-empty queue, and the broker, the results store, the scheduler,
    the logger and the tracer are those of before. *)
Theorem register_all_keeps_registry_ok (s : Server)
    (rs : list (string * handler * TaskOpts)) :
  registry_ok s ->
  registry_ok (register_all s rs)
  /\ srv_broker (register_all s rs) = srv_broker s
  /\ srv_results (register_all s rs) = srv_results s
  /\ srv_cron (register_all s rs) = srv_cron s
  /\ srv_log (register_all s rs) = srv_log s
  /\ srv_traceProv (register_all s rs) = srv_traceProv s.
Proof.
  intros Hok. induction rs as [|r rs IH] using rev_ind; [done|].
  rewrite register_all_snoc. destruct IH as (IH & Hb & Hr & Hc & Hl & Ht).
  split; [by apply RegisterTask_keeps_registry_ok|].
  by rewrite RegisterTask_registers.
Qed.

(** ** The goroutines of [Start] *)

Lemma count_process_replicate (chan k : string) (n : nat) :
  count_if (is_process_of chan) (replicate n (GoProcess k))
  = if String.eqb k chan then n else 0%nat.
Proof.
  unfold count_if. induction n as [|n IH]; simpl.
  - by destruct (String.eqb k chan).
  - destruct (String.eqb k chan); simpl; [by rewrite IH|done].
Qed.

Lemma count_consume_replicate (chan k : string) (n : nat) :
  count_if (is_consume_of chan) (replicate n (GoProcess k)) = 0%nat.
Proof. unfold count_if. induction n as [|n IH]; simpl; done. Qed.

Lemma count_Start_task (chan : string) (kt : string * Task) :
  count_if (is_process_of chan) (Start_task kt)
  = (if String.eqb kt.1 chan
     then Z.to_nat (topts_Concurrency (task_opts kt.2)) else 0%nat)
  /\ count_if (is_consume_of chan) (Start_task kt)
     = (if String.eqb kt.1 chan then 1%nat else 0%nat).
Proof.
  unfold Start_task. split.
  - change (count_if (is_process_of chan) (?g :: ?l))
      with (count_if (is_process_of chan) l).
    apply count_process_replicate.
  - unfold count_if; simpl. fold (count_if (is_consume_of chan)
      (replicate (Z.to_nat (topts_Concurrency (task_opts kt.2))) (GoProcess kt.1))).
    destruct (String.eqb kt.1 chan); simpl;
      fold (count_if (is_consume_of chan)
        (replicate (Z.to_nat (topts_Concurrency (task_opts kt.2))) (GoProcess kt.1)));
      by rewrite count_consume_replicate.
Qed.

(** Over entries with distinct keys, only the entry of [chan] counts. *)
Lemma count_Start_tasks (chan : string) (l : list (string * Task)) :
  NoDup l.*1 ->
  (chan ∉ l.*1 ->
     count_if (is_process_of chan) (flat_map Start_task l) = 0%nat
     /\ count_if (is_consume_of chan) (flat_map Start_task l) = 0%nat)
  /\ (forall t, (chan, t) ∈ l ->
       count_if (is_process_of chan) (flat_map Start_task l)
       = Z.to_nat (topts_Concurrency (task_opts t))
       /\ count_if (is_consume_of chan) (flat_map Start_task l) = 1%nat).
Proof.
  induction l as [|[k t'] l IH]; intros Hnd.
  - split; [done|]. intros t H. by apply elem_of_nil in H.
  - simpl in Hnd. apply NoDup_cons in Hnd as [Hk Hnd].
    destruct (IH Hnd) as [IH0 IH1].
    change (flat_map Start_task ((k, t') :: l))
      with (Start_task (k, t') ++ flat_map Start_task l).
    rewrite !count_if_app.
    destruct (count_Start_task chan (k, t')) as [-> ->]. simpl fst; simpl snd.
    destruct (String.eqb_spec k chan) as [->|Hne].
    + split.
      * intros Hnot. exfalso. apply Hnot. simpl. apply elem_of_cons; by left.
      * intros t Ht. apply elem_of_cons in Ht as [[= ->]|Ht].
        -- destruct (IH0 Hk) as [-> ->]. lia.
        -- exfalso. apply Hk. apply list_elem_of_fmap. by exists (chan, t).
    + split.
      * intros Hnot. apply IH0. intros Hin. apply Hnot. simpl.
        apply elem_of_cons; by right.
      * intros t Ht. apply elem_of_cons in Ht as [[= ? ?]|Ht]; [done|].
        by destruct (IH1 t Ht) as [-> ->].
Qed.

(** X3.  [Start] launches, for every registered task, exactly one
    consumer, on the task's queue, and exactly [Concurrency] processors on
    the channel that consumer feeds; for a name that is not registered it
    launches neither.  When the registry is well formed, as [RegisterTask]
    keeps it, every consumer has at least one processor reading it. *)
Theorem Start_goroutines (s : Server) (name : string) :
  match srv_tasks s !! name with
  | Some t =>
    GoConsume name (topts_Queue (task_opts t)) ∈ Start s
    /\ count_if (is_consume_of name) (Start s) = 1%nat
    /\ count_if (is_process_of name) (Start s)
       = Z.to_nat (topts_Concurrency (task_opts t))
    /\ (registry_ok s -> (1 <= count_if (is_process_of name) (Start s))%nat)
  | None =>
    count_if (is_consume_of name) (Start s) = 0%nat
    /\ count_if (is_process_of name) (Start s) = 0%nat
  end.
Proof.
  pose proof (count_Start_tasks name (map_to_list (srv_tasks s))
                (NoDup_fst_map_to_list _)) as [H0 H1].
  unfold Start.
  change (count_if (is_process_of name) (GoCron :: ?l))
    with (count_if (is_process_of name) l).
  change (count_if (is_consume_of name) (GoCron :: ?l))
    with (count_if (is_consume_of name) l).
  destruct (srv_tasks s !! name) as [t|] eqn:Hl.
  - apply elem_of_map_to_list in Hl as Hin.
    destruct (H1 t Hin) as [Hp Hc]. rewrite Hp, Hc.
    split; [|split; [done|split; [done|]]].
    + apply elem_of_cons; right. apply list_elem_of_In, in_flat_map.
      exists (name, t). split; [by apply list_elem_of_In|]. by left.
    + intros Hok. destruct (Hok _ _ Hl) as (_ & Hc1 & _). lia.
  - apply and_comm, H0. intros Hin.
    apply list_elem_of_fmap in Hin as ([k t] & -> & Hin).
    apply elem_of_map_to_list in Hin. simpl in Hl. congruence.
Qed.

(** ** The shape of a run of [execJob] *)

Section Runs_of_execJob.
Context {L : Libs}.

Lemma retryJob_events (s : Server) (msg : JobMessage) (h : History) ev :
  ev ∈ (retryJob s msg h).2 ->
  is_collaborator_call ev = true /\ is_index_write ev = false.
Proof.
  intros H.
  by apply retryJob_trace in H as (b & v & _ & _ & [[r ->]|[r [-> _]]]).
Qed.

Lemma statusDone_events (s : Server) (t : JobMessage) (h : History) ev :
  ev ∈ (statusDone s t h).2 ->
  is_collaborator_call ev = true
  /\ (is_index_write ev = true -> exists r, ev = EvSetSuccess (msg_UUID t) r).
Proof.
  rewrite statusDone_run.
  destruct (res_SetSuccess _ _ _); simpl; intros H; in_trace; subst;
    try (split; [done|eauto]).
  apply setJobMessage_trace in H as (b & _ & -> & _). by split.
Qed.

Lemma statusFailed_events (s : Server) (t : JobMessage) (h : History) ev :
  ev ∈ (statusFailed s t h).2 ->
  is_collaborator_call ev = true
  /\ (is_index_write ev = true -> exists r, ev = EvSetFailed (msg_UUID t) r).
Proof.
  rewrite statusFailed_run.
  destruct (res_SetFailed _ _ _); simpl; intros H; in_trace; subst;
    try (split; [done|eauto]).
  apply setJobMessage_trace in H as (b & _ & -> & _). by split.
Qed.

Lemma enqueueWithMeta_events (s : Server) (t : Job) (meta : Meta) (h : History) ev :
  ev ∈ (enqueueWithMeta s t meta h).2 ->
  is_collaborator_call ev = true /\ is_index_write ev = false.
Proof.
  intros H.
  by apply enqueueWithMeta_trace
    in H as (b & _ & [[r ->]|[(q & r & ->)|(sp & q & r & ->)]]).
Qed.

Lemma count_index_write_status (s : Server) (t : JobMessage) (h : History) :
  count_if is_index_write (statusDone s t h).2 = 1%nat
  /\ count_if is_index_write (statusFailed s t h).2 = 1%nat.
Proof.
  rewrite statusDone_run, statusFailed_run. split.
  - destruct (res_SetSuccess _ _ _); [done|]. simpl.
    rewrite setJobMessage_run. by destruct (msgpack_Marshal _).
  - destruct (res_SetFailed _ _ _); [done|]. simpl.
    rewrite setJobMessage_run. by destruct (msgpack_Marshal _).
Qed.

Lemma count_handler_trace (s : Server) (msg : JobMessage) (task : Task) (h : History) :
  count_if is_handler_call (handler_trace s msg task h) = 1%nat
  /\ count_if is_index_write (handler_trace s msg task h) = 0%nat.
Proof.
  unfold handler_trace. rewrite !count_if_app.
  by destruct (topts_ProcessingCB (task_opts task)).
Qed.

Lemma outcome_trace_events (s : Server) (msg : JobMessage) (task : Task) a ev :
  ev ∈ outcome_trace s msg task a -> is_callback ev = true.
Proof.
  unfold outcome_trace. intros H.
  destruct a; [destruct (negb _)|];
    by apply hook_trace_no_store_write in H as ->.
Qed.

Lemma count_callback_hook_trace (k : Hook) (cb : option callback) (c : JobCtx) :
  (count_if is_callback (hook_trace k cb c) <= 1)%nat.
Proof. destruct cb; unfold count_if; simpl; lia. Qed.

(** What follows the handler and the outcome callback in [execJob]. *)
Lemma execJob_shape (s : Server) (msg : JobMessage) (task : Task) (h : History) :
  exists rest,
    (execJob s msg task h).2
    = handler_trace s msg task h
      ++ outcome_trace s msg task (handler_answer s msg task h) ++ rest
    /\ (forall ev, ev ∈ rest -> is_collaborator_call ev = true)
    /\ (count_if is_index_write rest <= 1)%nat
    /\ (forall ev, ev ∈ rest -> is_index_write ev = true ->
          (exists r, ev = EvSetSuccess (msg_UUID msg) r
             /\ handler_answer s msg task h = None)
          \/ (exists r, ev = EvSetFailed (msg_UUID msg) r
               /\ handler_answer s msg task h <> None
               /\ msg_Retried msg = msg_MaxRetry msg)).
Proof.
  destruct (handler_answer s msg task h) as [e|] eqn:Hans.
  - rewrite (execJob_error _ _ _ _ _ Hans). unfold outcome_trace.
    destruct (Z.eqb_spec (msg_MaxRetry msg) (msg_Retried msg)) as [Heq|Hne];
      simpl negb; cbv iota zeta; simpl snd.
    + eexists. split; [by rewrite <- app_assoc|].
      split; [intros ev H; by apply statusFailed_events in H as [? _]|].
      split; [by rewrite (proj2 (count_index_write_status _ _ _))|].
      intros ev H Hidx. right.
      apply statusFailed_events in H as [_ H]. destruct (H Hidx) as [r ->].
      exists r. by repeat split.
    + eexists. split; [by rewrite <- app_assoc|].
      split; [intros ev H; by apply retryJob_events in H as [? _]|].
      split.
      * rewrite count_if_none; [lia|].
        intros ev H. by apply retryJob_events in H as [_ ?].
      * intros ev H Hidx. apply retryJob_events in H as [_ H]. congruence.
  - rewrite (execJob_success _ _ _ _ Hans). unfold outcome_trace. cbv zeta.
    destruct (job_OnSuccess (msg_Job msg)) as [nj|].
    + destruct (enqueueWithMeta _ _ _ _) as [[uuid [e|]] tw] eqn:Hw; simpl.
      * exists tw. split; [by rewrite <- app_assoc|].
        pose proof (enqueueWithMeta_events s nj
          (set_PrevJobResults (ctx_results (jobCtx s msg)) (DefaultMeta (job_Opts nj)))
          (h ++ handler_trace s msg task h
             ++ hook_trace HookSuccess (topts_SuccessCB (task_opts task)) (jobCtx s msg)))
          as Hev.
        rewrite Hw in Hev. simpl in Hev.
        split; [intros ev H; by apply Hev in H as [? _]|].
        split.
        -- rewrite count_if_none; [lia|]. intros ev H. by apply Hev in H as [_ ?].
        -- intros ev H Hidx. apply Hev in H as [_ H]. congruence.
      * eexists (tw ++ _). split; [by rewrite <- !app_assoc|].
        pose proof (enqueueWithMeta_events s nj
          (set_PrevJobResults (ctx_results (jobCtx s msg)) (DefaultMeta (job_Opts nj)))
          (h ++ handler_trace s msg task h
             ++ hook_trace HookSuccess (topts_SuccessCB (task_opts task)) (jobCtx s msg)))
          as Hev.
        rewrite Hw in Hev. simpl in Hev.
        split; [|split].
        -- intros ev H. in_trace; [by apply Hev in H as [? _]|].
           by apply statusDone_events in H as [? _].
        -- rewrite count_if_app, (proj1 (count_index_write_status _ _ _)).
           rewrite count_if_none; [lia|]. intros ev H. by apply Hev in H as [_ ?].
        -- intros ev H Hidx. left. in_trace.
           ++ apply Hev in H as [_ H]. congruence.
           ++ apply statusDone_events in H as [_ H]. destruct (H Hidx) as [r ->].
              by exists r.
    + simpl. eexists. split; [by rewrite <- app_assoc|].
      split; [intros ev H; by apply statusDone_events in H as [? _]|].
      split; [by rewrite (proj1 (count_index_write_status _ _ _))|].
      intros ev H Hidx. left.
      apply statusDone_events in H as [_ H]. destruct (H Hidx) as [r ->].
      by exists r.
Qed.

Lemma count_handler_execJob (s : Server) (msg : JobMessage) (task : Task)
    (h : History) :
  count_if is_handler_call (execJob s msg task h).2 = 1%nat.
Proof.
  destruct (execJob_shape s msg task h) as (rest & Htr & Hrest & _).
  rewrite Htr, !count_if_app, (proj1 (count_handler_trace _ _ _ _)).
  rewrite (count_if_none _ (outcome_trace _ _ _ _)), (count_if_none _ rest); [done| |].
  - intros ev H. apply Hrest in H. by destruct ev.
  - intros ev H. apply outcome_trace_events in H. by destruct ev.
Qed.

(** X4.  Every run of [execJob] has the same shape: the processing
    callback if set, then the handler, called exactly once, then the one
    callback that matches the outcome (success when the handler returned
    nil, retrying when it failed and the counters differ, failed when they
    are equal), and only then calls on the results store and the broker.
    So a callback tells that an outcome was decided, not that its state
    was written. *)
Theorem execJob_callbacks_before_writes (s : Server) (msg : JobMessage)
    (task : Task) (h : History) :
  (exists rest,
      (execJob s msg task h).2
      = hook_trace HookProcessing (topts_ProcessingCB (task_opts task)) (jobCtx s msg)
        ++ [EvHandler (task_name task) (job_Payload (msg_Job msg)) (msg_Meta msg)
              (handler_answer s msg task h)]
        ++ outcome_trace s msg task (handler_answer s msg task h) ++ rest
      /\ (forall ev, ev ∈ rest -> is_collaborator_call ev = true))
  /\ count_if is_handler_call (execJob s msg task h).2 = 1%nat
  /\ (count_if is_callback (execJob s msg task h).2 <= 2)%nat.
Proof.
  destruct (execJob_shape s msg task h) as (rest & Htr & Hrest & _).
  split; [exists rest; split; [|done]|split].
  - rewrite Htr. unfold handler_trace. by rewrite <- !app_assoc.
  - apply count_handler_execJob.
  - rewrite Htr, !count_if_app, (count_if_none _ rest).
    + pose proof (count_callback_hook_trace HookProcessing
                    (topts_ProcessingCB (task_opts task)) (jobCtx s msg)).
      unfold handler_trace. rewrite count_if_app.
      change (count_if is_callback [EvHandler _ _ _ _]) with 0%nat.
      assert (count_if is_callback
                (outcome_trace s msg task (handler_answer s msg task h)) <= 1)%nat.
      { unfold outcome_trace.
        destruct (handler_answer s msg task h); [destruct (negb _)|];
          apply count_callback_hook_trace. }
      lia.
    + intros ev H. apply Hrest in H. by destruct ev.
Qed.

(** X5.  A run of [execJob] writes to an index at most once, and only
    for the uuid of the message it was given: the success index only when
    the handler returned nil, the failed index only when it returned an
    error with [retried = maxRetry].  One delivery is never recorded as
    both. *)
Theorem execJob_one_index_write (s : Server) (msg : JobMessage) (task : Task)
    (h : History) :
  (count_if is_index_write (execJob s msg task h).2 <= 1)%nat
  /\ (forall ev, ev ∈ (execJob s msg task h).2 -> is_index_write ev = true ->
        (exists r, ev = EvSetSuccess (msg_UUID msg) r
           /\ handler_answer s msg task h = None)
        \/ (exists r, ev = EvSetFailed (msg_UUID msg) r
             /\ handler_answer s msg task h <> None
             /\ msg_Retried msg = msg_MaxRetry msg)).
Proof.
  destruct (execJob_shape s msg task h) as (rest & Htr & _ & Hcount & Hidx).
  rewrite Htr. split.
  - rewrite !count_if_app, (proj2 (count_handler_trace _ _ _ _)).
    rewrite (count_if_none _ (outcome_trace _ _ _ _)); [lia|].
    intros ev H. apply outcome_trace_events in H. by destruct ev.
  - intros ev H Hi. in_trace.
    + by apply handler_trace_events in H as [->| ->].
    + apply outcome_trace_events in H. by destruct ev.
    + by apply Hidx.
Qed.

End Runs_of_execJob.

(** ** State writes *)

Section State_writes.
Context {L : Libs}.

Lemma same_but_stamp_stamp (now : Time) (st : string) (t : JobMessage) :
  same_but_stamp t (stamp now st t).
Proof. by repeat split. Qed.

(** A status function that stamps and writes: at most one call, the write
    of the stamped copy; nil is returned only when the store took it. *)
Lemma stamped_write (s : Server) (st : string) (t : JobMessage) (h : History) :
  let w := setJobMessage s (stamp (time_Now h) st t) h in
  (forall ev, ev ∈ w.2 ->
     exists v r t',
       ev = EvSet (jobPrefix +:+ msg_UUID t) v r
       /\ msgpack_Marshal t' = inl v
       /\ msg_Status t' = st /\ msg_ProcessedAt t' = time_Now h
       /\ same_but_stamp t t')
  /\ (length w.2 <= 1)%nat
  /\ (w.1 = None -> exists v, w.2 = [EvSet (jobPrefix +:+ msg_UUID t) v None])
  /\ (forall e, msgpack_Marshal (stamp (time_Now h) st t) = inr e ->
        w = (Some e, [])).
Proof.
  intros w. unfold w. rewrite setJobMessage_run. simpl msg_UUID.
  destruct (msgpack_Marshal (stamp (time_Now h) st t)) as [v|e] eqn:Hm; simpl.
  - split; [|split; [lia|split; [|done]]].
    + intros ev H. in_trace. subst.
      exists v, (res_Set (srv_results s) h (jobPrefix +:+ msg_UUID t) v),
        (stamp (time_Now h) st t).
      repeat split; done.
    + intros ->. eauto.
  - split; [intros ev H; in_trace|].
    split; [lia|]. split; [done|]. by intros ? [= ->].
Qed.

(** X6.  [statusStarted], [statusProcessing] and [statusRetrying] make at
    most one call, a [Set] under the key of the message's own uuid, of a
    message that differs from the one given only in its status ([queued],
    [processing], [retrying]) and its timestamp.  They return nil only
    when the store accepted that write, and when the message does not
    marshal they return the error and call nothing. *)
Theorem status_writers_frame (s : Server) (t : JobMessage) (h : History) :
  let key := jobPrefix +:+ msg_UUID t in
  let spec (st : string) (w : error * list Event) :=
    (forall ev, ev ∈ w.2 ->
       exists v r t',
         ev = EvSet key v r
         /\ msgpack_Marshal t' = inl v
         /\ msg_Status t' = st /\ msg_ProcessedAt t' = time_Now h
         /\ same_but_stamp t t')
    /\ (length w.2 <= 1)%nat
    /\ (w.1 = None -> exists v, w.2 = [EvSet key v None])
    /\ (forall e, msgpack_Marshal (stamp (time_Now h) st t) = inr e ->
          w = (Some e, [])) in
  spec StatusStarted (statusStarted s t h)
  /\ spec StatusProcessing (statusProcessing s t h)
  /\ spec StatusRetrying (statusRetrying s t h).
Proof.
  intros key spec. unfold spec, key, statusStarted, statusProcessing, statusRetrying.
  split; [|split]; apply stamped_write.
Qed.

(** X7.  When the handler returns nil and the job has no successor,
    [execJob] never calls the broker.  It calls [SetSuccess] on the uuid
    and, if that returns no error and the message marshals, writes the
    message stamped [successful], with its counters, its [prevErr] and its
    [OnSuccessUUID] as delivered; an error of the index write is returned
    and nothing more is written. *)
Theorem execJob_success_without_successor (s : Server) (msg : JobMessage)
    (task : Task) (h : History) :
  handler_answer s msg task h = None ->
  job_OnSuccess (msg_Job msg) = None ->
  let pre := handler_trace s msg task h
             ++ hook_trace HookSuccess (topts_SuccessCB (task_opts task)) (jobCtx s msg) in
  let u := msg_UUID msg in
  let key := jobPrefix +:+ u in
  let done := stamp (time_Now (h ++ pre)) StatusDone msg in
  execJob s msg task h =
  match res_SetSuccess (srv_results s) (h ++ pre) u with
  | Some e' => (Some e', pre ++ [EvSetSuccess u (Some e')])
  | None =>
    match msgpack_Marshal done with
    | inr e' => (Some e', pre ++ [EvSetSuccess u None])
    | inl v =>
      let r := res_Set (srv_results s) (h ++ pre ++ [EvSetSuccess u None]) key v in
      (r, pre ++ [EvSetSuccess u None; EvSet key v r])
    end
  end
  /\ (msg_Status done = StatusDone /\ same_but_stamp msg done)
  /\ (forall ev, ev ∈ (execJob s msg task h).2 -> is_enqueue ev = false).
Proof.
  intros Hans Hnext pre u key done.
  pose proof (execJob_success _ _ _ _ Hans) as Hrun.
  rewrite Hnext in Hrun. cbv zeta in Hrun. fold pre in Hrun.
  assert (Hpre : forall ev, ev ∈ pre -> is_enqueue ev = false).
  { intros ev H. unfold pre in H. in_trace.
    - by apply handler_trace_events in H as [->| ->].
    - by apply hook_trace_no_store_write in H as ->. }
  rewrite Hrun, statusDone_run. simpl msg_UUID. fold u done.
  destruct (res_SetSuccess (srv_results s) (h ++ pre) u) as [e'|]; simpl.
  - split; [done|]. split; [split; [done|apply same_but_stamp_stamp]|].
    intros ev H. in_trace; subst; [by apply Hpre|done].
  - rewrite setJobMessage_run. simpl msg_UUID. fold u key.
    rewrite <- app_assoc.
    destruct (msgpack_Marshal done) as [v|e']; simpl;
      (split; [done|]); (split; [split; [done|apply same_but_stamp_stamp]|]);
      intros ev H; in_trace; subst; try done; by apply Hpre.
Qed.

End State_writes.

(** ** The loop of [process] *)

Section Loop.
Context {L : Libs}.

Lemma process_run_app (s : Server) (w1 w2 : list bytes) :
  forall h,
    process s (w1 ++ w2) h
    = (tt, (process s w1 h).2 ++ (process s w2 (h ++ (process s w1 h).2)).2).
Proof.
  induction w1 as [|work w1 IH]; intros h.
  - simpl. rewrite app_nil_r. by destruct (process s w2 h) as [[] ?].
  - rewrite <- app_comm_cons, !process_cons, IH. simpl.
    by rewrite <- !app_assoc.
Qed.

Lemma processWork_undeliverable (s : Server) (work : bytes) (h : History) :
  deliverable s work = false -> processWork s work h = (tt, []).
Proof.
  unfold deliverable. rewrite processWork_run.
  destruct (msgpack_Unmarshal work) as [msg|e]; [|done].
  by destruct (getHandler s _).
Qed.

Lemma count_handler_processWork (s : Server) (work : bytes) (h : History) :
  (count_if is_handler_call (processWork s work h).2 <= 1)%nat.
Proof.
  rewrite processWork_run.
  destruct (msgpack_Unmarshal work) as [msg|e]; [|simpl; unfold count_if; simpl; lia].
  destruct (getHandler s _) as [task|e]; [|simpl; unfold count_if; simpl; lia].
  cbv zeta.
  assert (Hp : count_if is_handler_call (statusProcessing s msg h).2 = 0%nat).
  { apply count_if_none. intros ev H.
    by apply statusProcessing_trace in H as (b & r & -> & _). }
  destruct (statusProcessing s msg h).1; simpl; [lia|].
  rewrite count_if_app, Hp.
  rewrite count_handler_execJob. lia.
Qed.

(** X8.  The worker loop composes and skips what it cannot dispatch: the
    run over [w1 ++ w2] is the run over [w1] followed by the run over
    [w2]; a message that does not decode, or whose task is not
    registered, leaves no trace, so a run is the run over the messages
    that can be dispatched; and the handler is called at most once per
    message delivered. *)
Theorem process_composes (s : Server) (w1 w2 : list bytes) (h : History) :
  process s (w1 ++ w2) h
  = (tt, (process s w1 h).2 ++ (process s w2 (h ++ (process s w1 h).2)).2)
  /\ process s w1 h = process s (List.filter (deliverable s) w1) h
  /\ (count_if is_handler_call (process s w1 h).2 <= length w1)%nat.
Proof.
  split; [apply process_run_app|]. split.
  - revert h. induction w1 as [|work w1 IH]; intros h; [done|].
    simpl List.filter. destruct (deliverable s work) eqn:Hd.
    + rewrite !process_cons. by rewrite IH.
    + rewrite process_cons, (processWork_undeliverable _ _ _ Hd). simpl.
      rewrite app_nil_r, <- IH. by destruct (process s w1 h) as [[] ?].
  - revert h. induction w1 as [|work w1 IH]; intros h.
    + simpl. unfold count_if; simpl. lia.
    + rewrite process_cons. simpl snd. rewrite count_if_app. simpl length.
      pose proof (count_handler_processWork s work h).
      pose proof (IH (h ++ (processWork s work h).2)). lia.
Qed.

(** X10.  Whenever the worker runs a handler for a message, the first
    call it made for that message is the write of the message stamped
    [processing] under the message's key, and the store accepted it; the
    handler call and every later write come after it. *)
Theorem processWork_processing_first (s : Server) (work : bytes) (h : History) :
  forall ev, ev ∈ (processWork s work h).2 -> is_handler_call ev = true ->
    exists msg task v,
      msgpack_Unmarshal work = inl msg
      /\ getHandler s (job_Task (msg_Job msg)) = inl task
      /\ msgpack_Marshal (stamp (time_Now h) StatusProcessing msg) = inl v
      /\ (processWork s work h).2
         = EvSet (jobPrefix +:+ msg_UUID msg) v None
           :: (execJob s msg task
                 (h ++ [EvSet (jobPrefix +:+ msg_UUID msg) v None])).2.
Proof.
  intros ev H Hcall.
  destruct (processWork_handler_call _ _ _ _ H Hcall) as (msg & task & Hu & Ht & Hp).
  destruct (stamped_write s StatusProcessing msg h) as (Hev & _ & Hok & _).
  fold (statusProcessing s msg h) in Hev, Hok.
  destruct (Hok Hp) as [v Hv].
  exists msg, task, v. split; [done|]. split; [done|]. split.
  - destruct (Hev (EvSet (jobPrefix +:+ msg_UUID msg) v None)) as (v' & r & t' & Heq & _);
      [rewrite Hv; apply elem_of_cons; by left|].
    injection Heq as <- <-.
    pose proof (setJobMessage_run s (stamp (time_Now h) StatusProcessing msg) h) as Hrun.
    fold (statusProcessing s msg h) in Hrun.
    destruct (msgpack_Marshal (stamp (time_Now h) StatusProcessing msg)) as [b|e].
    + rewrite Hrun in Hv. simpl in Hv. by injection Hv as ->.
    + rewrite Hrun in Hv. done.
  - rewrite processWork_run, Hu, Ht. cbv zeta. by rewrite Hp, Hv.
Qed.

End Loop.

(** ** Redelivery *)

Lemma accepted_enqueue_none (t : list Event) :
  (forall ev, ev ∈ t -> is_enqueue ev = false) -> accepted_enqueue t = None.
Proof.
  intros H. unfold accepted_enqueue.
  destruct (last t) as [ev|] eqn:Hl; [|done].
  apply last_Some_elem_of, H in Hl. by destruct ev.
Qed.

Lemma accepted_enqueue_app (l1 l2 : list Event) :
  accepted_enqueue (l1 ++ l2)
  = match l2 with [] => accepted_enqueue l1 | _ => accepted_enqueue l2 end.
Proof.
  unfold accepted_enqueue. rewrite last_app.
  destruct l2 as [|x l2]; [done|].
  destruct (last (x :: l2)) eqn:Hl; [done|]. by apply last_None in Hl.
Qed.

Section Redelivered.
Context {L : Libs}.

Lemma accepted_enqueue_retryJob (s : Server) (msg : JobMessage) (h : History) b :
  accepted_enqueue (retryJob s msg h).2 = Some b ->
  msgpack_Marshal (incremented msg) = inl b.
Proof.
  rewrite retryJob_run. cbv zeta.
  destruct (msgpack_Marshal (incremented msg)) as [b'|e]; [|done].
  destruct (msgpack_Marshal (stamp _ _ _)) as [v|e]; [|done].
  destruct (res_Set _ _ _ _) as [e|]; [done|]. simpl.
  unfold accepted_enqueue; simpl. destruct (brk_Enqueue _ _ _ _); [done|].
  by intros [= ->].
Qed.

Lemma accepted_enqueue_enqueueWithMeta (s : Server) (t : Job) (meta : Meta)
    (h : History) e :
  (enqueueWithMeta s t meta h).1.2 = Some e ->
  accepted_enqueue (enqueueWithMeta s t meta h).2 = None.
Proof.
  unfold enqueueWithMeta.
  destruct (msgpack_Marshal _) as [b|e']; [|done].
  unfold bind, results_Set, call; simpl.
  destruct (res_Set _ _ _ _) as [e'|]; simpl; [done|].
  destruct (String.eqb (jopts_Schedule (job_Opts t)) ""); simpl;
    unfold broker_Enqueue, call; simpl; [|done].
  by destruct (brk_Enqueue _ _ _ _).
Qed.

Lemma handler_trace_not_nil (s : Server) (msg : JobMessage) (task : Task)
    (h : History) (l : list Event) :
  handler_trace s msg task h ++ l <> [].
Proof. unfold handler_trace. by destruct (hook_trace _ _ _), l. Qed.

(** The broker accepts, as the last call of a run of [execJob], only the
    bytes of a retry. *)
Lemma accepted_enqueue_execJob (s : Server) (msg : JobMessage) (task : Task)
    (h : History) b :
  accepted_enqueue (execJob s msg task h).2 = Some b ->
  exists e,
    msg_Retried msg <> msg_MaxRetry msg
    /\ msgpack_Marshal (incremented (set_PrevErr e msg)) = inl b.
Proof.
  assert (Hpre : forall k cb, accepted_enqueue
            (handler_trace s msg task h ++ hook_trace k cb (jobCtx s msg)) = None).
  { intros k cb. apply accepted_enqueue_none. intros ev H. in_trace.
    - by apply handler_trace_events in H as [->| ->].
    - by apply hook_trace_no_store_write in H as ->. }
  assert (Hdone : forall t h', accepted_enqueue (statusDone s t h').2 = None).
  { intros t h'. apply accepted_enqueue_none. intros ev H.
    rewrite statusDone_run in H.
    destruct (res_SetSuccess _ _ _); simpl in H; in_trace; subst; try done.
    by apply setJobMessage_trace in H as (v & _ & -> & _). }
  assert (Hdone' : forall t h', (statusDone s t h').2 <> []).
  { intros t h'. rewrite statusDone_run. by destruct (res_SetSuccess _ _ _). }
  destruct (handler_answer s msg task h) as [e|] eqn:Hans.
  - rewrite (execJob_error _ _ _ _ _ Hans).
    destruct (Z.eqb_spec (msg_MaxRetry msg) (msg_Retried msg)) as [Heq|Hne];
      simpl negb; cbv iota zeta; simpl snd; rewrite accepted_enqueue_app.
    + rewrite statusFailed_run.
      destruct (res_SetFailed _ _ _); simpl; [done|].
      rewrite setJobMessage_run. by destruct (msgpack_Marshal _).
    + destruct (retryJob _ _ _).2 eqn:Hr; [by rewrite Hpre|].
      rewrite <- Hr. intros H. exists e. split; [done|].
      by apply accepted_enqueue_retryJob in H.
  - rewrite (execJob_success _ _ _ _ Hans). cbv zeta.
    destruct (job_OnSuccess (msg_Job msg)) as [nj|].
    + destruct (enqueueWithMeta _ _ _ _).1.2 as [e|] eqn:Hw; cbn [snd].
      * rewrite accepted_enqueue_app.
        rewrite (accepted_enqueue_enqueueWithMeta _ _ _ _ _ Hw), Hpre.
        by destruct (enqueueWithMeta _ _ _ _).2.
      * rewrite !app_assoc, accepted_enqueue_app.
        destruct (statusDone _ _ _).2 eqn:Hd; [by apply Hdone' in Hd|].
        rewrite <- Hd. by rewrite Hdone.
    + cbn [snd]. rewrite accepted_enqueue_app.
      destruct (statusDone _ _ _).2 eqn:Hd; [by apply Hdone' in Hd|].
      rewrite <- Hd. by rewrite Hdone.
Qed.

Lemma accepted_enqueue_processWork (s : Server) (work : bytes) (h : History) b :
  accepted_enqueue (processWork s work h).2 = Some b ->
  exists msg e,
    msgpack_Unmarshal work = inl msg
    /\ msg_Retried msg <> msg_MaxRetry msg
    /\ msgpack_Marshal (incremented (set_PrevErr e msg)) = inl b.
Proof.
  rewrite processWork_run.
  destruct (msgpack_Unmarshal work) as [msg|e]; [|done].
  destruct (getHandler s _) as [task|e]; [|done]. cbv zeta.
  assert (Hp : accepted_enqueue (statusProcessing s msg h).2 = None).
  { apply accepted_enqueue_none. intros ev H.
    by apply statusProcessing_trace in H as (v & r & -> & _). }
  destruct (statusProcessing s msg h).1; simpl snd; [by rewrite Hp|].
  rewrite accepted_enqueue_app.
  destruct (execJob s msg task _).2 eqn:He; [by rewrite Hp|]. rewrite <- He.
  intros H. apply accepted_enqueue_execJob in H as (e' & Hne & Hb).
  by exists msg, e'.
Qed.

Lemma redeliver_undecodable (n : nat) (s : Server) (work : bytes) (h : History) e :
  msgpack_Unmarshal work = inr e -> redeliver n s work h = [].
Proof.
  intros Hu.
  assert (Ht : (processWork s work h).2 = []) by (by rewrite processWork_run, Hu).
  destruct n; simpl; by rewrite Ht.
Qed.

(** X9.  Retries are bounded.  Let the broker hand back to the worker,
    any number of times, the bytes it last accepted from it, and let the
    codec keep the two counters of a message.  Then for a message with
    [retried <= maxRetry] the handler runs at most
    [maxRetry - retried + 1] times, whatever the handler, the store and
    the broker answer. *)
Theorem redeliver_bounded (s : Server) (n : nat) :
  counters_survive ->
  forall (work : bytes) (h : History) (msg : JobMessage),
    msgpack_Unmarshal work = inl msg ->
    0 <= msg_Retried msg <= msg_MaxRetry msg ->
    msg_MaxRetry msg < 2 ^ 32 ->
    (count_if is_handler_call (redeliver n s work h)
     <= Z.to_nat (msg_MaxRetry msg - msg_Retried msg) + 1)%nat.
Proof.
  intros Hwire. induction n as [|n IH]; intros work h msg Hu Hr Hmax.
  - simpl. pose proof (count_handler_processWork s work h). lia.
  - simpl. pose proof (count_handler_processWork s work h) as H1.
    destruct (accepted_enqueue (processWork s work h).2) as [b|] eqn:Hacc; [|lia].
    apply accepted_enqueue_processWork in Hacc as (msg' & e & Hu' & Hne & Hb).
    rewrite Hu in Hu'. injection Hu' as <-.
    rewrite count_if_app.
    destruct (msgpack_Unmarshal b) as [m'|e'] eqn:Hub.
    + destruct (Hwire _ _ _ Hb Hub) as [Hret Hmr].
      unfold incremented in Hret, Hmr. simpl in Hret, Hmr.
      rewrite uint32_small in Hret by lia.
      pose proof (IH b (h ++ (processWork s work h).2) m' Hub
                    ltac:(lia) ltac:(lia)) as H2.
      rewrite Hret, Hmr in H2.
      replace (Z.to_nat (msg_MaxRetry msg - msg_Retried msg))
        with (S (Z.to_nat (msg_MaxRetry msg - (msg_Retried msg + 1)))) by lia.
      lia.
    + rewrite (redeliver_undecodable _ _ _ _ _ Hub).
      unfold count_if at 2; simpl. lia.
Qed.

End Redelivered.

(** ** More runs of the model *)

Lemma wire_counters_survive : counters_survive (L := wireLibs).
Proof.
  intros m b m'. simpl. unfold wire_Marshal, wire_Unmarshal.
  destruct (Byte.of_N (Z.to_N (msg_Retried m))) as [r|] eqn:Hr; [|done].
  destruct (Byte.of_N (Z.to_N (msg_MaxRetry m))) as [n|] eqn:Hn; [|done].
  destruct (Z.leb_spec 0 (msg_Retried m)); [|done].
  destruct (Z.leb_spec 0 (msg_MaxRetry m)); [|done]. simpl.
  intros [= <-] [= <-]. simpl.
  apply Byte.to_of_N in Hr, Hn. rewrite Hr, Hn. lia.
Qed.

Lemma register_all_keeps_registry_ok_witness :
  registry_ok (toy_server good_store (const_broker None))
  /\ registry_ok
       (register_all (toy_server good_store (const_broker None))
          [("add", fun _ _ _ => boom, no_hooks 0 "");
           ("mul", fun _ _ _ => None, no_hooks 3 "fast")]).
Proof.
  assert (H : registry_ok (toy_server good_store (const_broker None))).
  { intros k t Hl. simpl in Hl. by rewrite lookup_empty in Hl. }
  split; [exact H|].
  exact (proj1 (register_all_keeps_registry_ok _ _ H)).
Defined.

(** Two registrations under one name and one under another, then lookups. *)
Example register_all_lookups :
  getHandler
    (register_all (toy_server good_store (const_broker None))
       [("add", fun _ _ _ => boom, no_hooks 0 "");
        ("mul", fun _ _ _ => None, no_hooks 3 "fast");
        ("add", fun _ _ _ => None, no_hooks 7 "")]) "add"
  = inl (mkTask "add" (fun _ _ _ => None) (no_hooks 7 DefaultQueue))
  /\ getHandler
       (register_all (toy_server good_store (const_broker None))
          [("add", fun _ _ _ => boom, no_hooks 0 "")]) "sub"
     = inr "handler sub not found"
  /\ map (is_process_of "add")
       (Start (register_all (toy_server good_store (const_broker None))
                 [("add", fun _ _ _ => boom, no_hooks 0 "")]))
     = [false; false; true].
Proof. repeat split. Qed.

Section More_runs.
#[local] Existing Instance toyLibs.

Lemma execJob_success_without_successor_witness :
  handler_answer (toy_server good_store (const_broker None)) (toy_msg 1 2 None)
    (toy_task None) [] = None
  /\ job_OnSuccess (msg_Job (toy_msg 1 2 None)) = None
  /\ execJob (toy_server good_store (const_broker None)) (toy_msg 1 2 None)
       (toy_task None) []
     = (None,
        [toy_call None;
         EvSetSuccess "u1" None;
         EvSet "msg:u1" (toy_bytes (stamp 1 StatusDone (toy_msg 1 2 None))) None]).
Proof.
  assert (Ha : handler_answer (toy_server good_store (const_broker None))
                 (toy_msg 1 2 None) (toy_task None) [] = None) by reflexivity.
  assert (Hn : job_OnSuccess (msg_Job (toy_msg 1 2 None)) = None) by reflexivity.
  split; [exact Ha|]. split; [exact Hn|].
  rewrite (proj1 (execJob_success_without_successor _ _ _ _ Ha Hn)). reflexivity.
Defined.

Lemma processWork_processing_first_witness :
  toy_call boom
    ∈ (processWork (add_server good_store (const_broker None) boom) [Byte.x00] []).2
  /\ is_handler_call (toy_call boom) = true
  /\ exists msg task v,
       msgpack_Unmarshal [Byte.x00] = inl msg
       /\ getHandler (add_server good_store (const_broker None) boom)
            (job_Task (msg_Job msg)) = inl task
       /\ msgpack_Marshal (stamp (time_Now []) StatusProcessing msg) = inl v
       /\ (processWork (add_server good_store (const_broker None) boom) [Byte.x00] []).2
          = EvSet (jobPrefix +:+ msg_UUID msg) v None
            :: (execJob (add_server good_store (const_broker None) boom) msg task
                  ([] ++ [EvSet (jobPrefix +:+ msg_UUID msg) v None])).2.
Proof.
  assert (Hin : toy_call boom
    ∈ (processWork (add_server good_store (const_broker None) boom) [Byte.x00] []).2).
  { vm_compute. apply elem_of_cons; right. apply elem_of_cons; by left. }
  assert (Hc : is_handler_call (toy_call boom) = true) by reflexivity.
  split; [exact Hin|]. split; [exact Hc|].
  exact (processWork_processing_first _ _ _ _ Hin Hc).
Defined.

End More_runs.

Section Wire_runs.
#[local] Existing Instance wireLibs.

Lemma redeliver_bounded_witness :
  counters_survive
  /\ msgpack_Unmarshal [Byte.x00; Byte.x02] = inl (toy_msg 0 2 None)
  /\ 0 <= msg_Retried (toy_msg 0 2 None) <= msg_MaxRetry (toy_msg 0 2 None)
  /\ msg_MaxRetry (toy_msg 0 2 None) < 2 ^ 32
  /\ (count_if is_handler_call
        (redeliver 5 (add_server good_store (const_broker None) boom)
           [Byte.x00; Byte.x02] []) <= 3)%nat.
Proof.
  assert (Hu : msgpack_Unmarshal [Byte.x00; Byte.x02] = inl (toy_msg 0 2 None))
    by reflexivity.
  assert (Hr : 0 <= msg_Retried (toy_msg 0 2 None) <= msg_MaxRetry (toy_msg 0 2 None))
    by (simpl; lia).
  assert (Hm : msg_MaxRetry (toy_msg 0 2 None) < 2 ^ 32) by reflexivity.
  split; [exact wire_counters_survive|].
  split; [exact Hu|]. split; [exact Hr|]. split; [exact Hm|].
  exact (redeliver_bounded (add_server good_store (const_broker None) boom) 5
           wire_counters_survive _ [] _ Hu Hr Hm).
Defined.

(** The bound is reached when every call succeeds and the handler always
    fails: three runs of the handler for [maxRetry = 2], two of them
    re-enqueued, the last one recorded as failed. *)
Example redeliver_exhausts_retries :
  map (fun ev => (is_handler_call ev, is_enqueue ev, is_index_write ev))
    (redeliver 5 (add_server good_store (const_broker None) boom)
       [Byte.x00; Byte.x02] [])
  = [(false, false, false); (true, false, false); (false, false, false);
     (false, true, false);
     (false, false, false); (true, false, false); (false, false, false);
     (false, true, false);
     (false, false, false); (true, false, false); (false, false, true);
     (false, false, false)].
Proof. reflexivity. Qed.

End Wire_runs.
